(** * icp-product-review: the product canister of [src/index.ts]

    A shallow embedding of the canister's data model and of its exported
    calls, followed by the properties of the calls.

    - A JavaScript [number] is an IEEE 754 binary64 value: it is embedded as
      the primitive [float] of the Standard Library, whose operations are
      specified by [SpecFloat] (round to nearest, ties to even).
    - [nat64] is embedded as [N]; the canister never computes with it.
    - The values the canister handles at run time are embedded as [Value]:
      [undefined], [null], numbers, strings, [nat64] integers, arrays of
      numbers ([Vec<number>]) and objects with their properties in order.
      Property reads, spreads and the test [=== null] are computed on them.
    - The canister builds azle's [Opt] with [Opt.None] and [Opt.Some]: an
      [Opt] is the object [{None: null}] or [{Some: v}].  This is also what
      [get], [insert] and [remove] of a [StableBTreeMap] hand back.
    - [StableBTreeMap<string, Product>] is embedded as a
      [gmap string Product]: the host stores a value by encoding it as a
      [Product] and refuses a key that is not a string or a value that is
      not a [Product].  The size bounds given to the constructor (44 bytes
      per key, 1024 per value) belong to the serialisation layer and are
      not part of the embedding.
    - [ic.time()] is a capability of the host: the value it yields during a
      call is an explicit argument of the call.  [uuidv4()] draws its bytes
      from [crypto.getRandomValues], which the canister defines itself; the
      depth of the call stack the host allows is an explicit argument.
    - A call completes with a value or throws; both are threaded with the
      store through the [Canister] monad, so that what a throwing call has
      written so far stays visible.  [Beyond] marks the few operations of
      JavaScript whose result lies outside [Value]; no call of the canister
      reaches one. *)

From Stdlib Require Import ZArith NArith QArith Qpower Qabs Floats Lia.
From stdpp Require Import gmap strings list fin_maps pretty.

Local Open Scope string_scope.
Local Open Scope list_scope.

(* Decimal literals such as 1.67 stand for the nearest binary64 value. *)
Set Warnings "-inexact-float,-register-all".

(** ** Numbers *)

Definition number : Set := float.
Definition nat64 : Set := N.

(** [a > b] is evaluated by JavaScript as [b < a]. *)
Definition gtb (a b : number) : bool := PrimFloat.ltb b a.

(** The number denoted by a mathematical integer (exact below [2^53],
    rounded to nearest beyond): the value of an array [length]. *)
Definition number_of_Z (z : Z) : number :=
  SF2Prim (binary_normalize prec emax z 0 false).

Definition number_of_nat (n : nat) : number := number_of_Z (Z.of_nat n).

(** ** Values *)

Inductive Value : Type :=
| Undefined
| Null
| Num (x : number)
| Str (s : string)
| BigInt (n : N)
| Arr (items : list number)
| Obj (props : list (string * Value)).

(** [v === null] *)
Definition strict_equals_null (v : Value) : bool :=
  match v with
  | Null => true
  | _ => false
  end.

(** [v === x] for a number [x]: NaN equals nothing, [0] equals [-0]. *)
Definition strict_equals_number (v : Value) (x : number) : bool :=
  match v with
  | Num y => PrimFloat.eqb y x
  | _ => false
  end.

(** The own property [key] of an object, when it has one. *)
Fixpoint own_prop (props : list (string * Value)) (key : string)
  : option Value :=
  match props with
  | [] => None
  | (k, v) :: props => if String.eqb k key then Some v else own_prop props key
  end.

(** [{...props, key: v}]: a property that is there keeps its place. *)
Fixpoint set_prop (props : list (string * Value)) (key : string) (v : Value)
  : list (string * Value) :=
  match props with
  | [] => [(key, v)]
  | (k, w) :: props =>
      if String.eqb k key then (key, v) :: props
      else (k, w) :: set_prop props key v
  end.

(** [{...props, ...more}] *)
Definition assign (props more : list (string * Value))
  : list (string * Value) :=
  fold_left (fun acc kv => set_prop acc (fst kv) (snd kv)) more props.

(** The properties the spread [{...v}] copies. *)
Definition own_props (v : Value) : list (string * Value) :=
  match v with
  | Obj props => props
  | Arr items => imap (fun i x => (pretty i, Num x)) items
  | Str s =>
      imap (fun i c => (pretty i, Str (String c ""))) (String.list_ascii_of_string s)
  | _ => []
  end.

(** ** Opt *)

Module Opt.
Definition None : Value := Obj [("None", Null)].
Definition Some (v : Value) : Value := Obj [("Some", v)].
End Opt.

(** ** Records of the canister *)

Module Product.
Record t : Type := mk {
  id : string;
  name : string;
  description : string;
  URL : string;
  Ratings : list number;
  created_at : nat64;
  updated_at : option nat64
}.
End Product.

Module ProductPayload.
Record t : Type := mk {
  name : string;
  description : string;
  URL : string
}.
End ProductPayload.

Abbreviation Product := Product.t.
Abbreviation ProductPayload := ProductPayload.t.

(** A stored [Product] as the object the host decodes it to. *)
Definition Product_value (product : Product) : Value :=
  Obj [("id", Str (Product.id product));
       ("name", Str (Product.name product));
       ("description", Str (Product.description product));
       ("URL", Str (Product.URL product));
       ("Ratings", Arr (Product.Ratings product));
       ("created_at", BigInt (Product.created_at product));
       ("updated_at",
        match Product.updated_at product with
        | Some t => Opt.Some (BigInt t)
        | None => Opt.None
        end)].

(** A [ProductPayload] as the properties of the object it is decoded to. *)
Definition ProductPayload_props (payload : ProductPayload)
  : list (string * Value) :=
  [("name", Str (ProductPayload.name payload));
   ("description", Str (ProductPayload.description payload));
   ("URL", Str (ProductPayload.URL payload))].

(** An [Opt<nat64>] the host can encode. *)
Definition as_Opt_nat64 (v : Value) : option (option nat64) :=
  match v with
  | Obj props =>
      match own_prop props "Some" with
      | Some (BigInt t) => Some (Some t)
      | Some _ => None
      | None =>
          match own_prop props "None" with
          | Some Null => Some None
          | _ => None
          end
      end
  | _ => None
  end.

(** A value the host can encode as a [Product]. *)
Definition as_Product (v : Value) : option Product :=
  match v with
  | Obj props =>
      match own_prop props "id", own_prop props "name",
            own_prop props "description", own_prop props "URL",
            own_prop props "Ratings", own_prop props "created_at",
            own_prop props "updated_at" with
      | Some (Str id), Some (Str name), Some (Str description), Some (Str URL),
        Some (Arr ratings), Some (BigInt created_at), Some updated_at =>
          match as_Opt_nat64 updated_at with
          | Some updated_at =>
              Some {| Product.id := id;
                      Product.name := name;
                      Product.description := description;
                      Product.URL := URL;
                      Product.Ratings := ratings;
                      Product.created_at := created_at;
                      Product.updated_at := updated_at |}
          | None => None
          end
      | _, _, _, _, _, _, _ => None
      end
  | _ => None
  end.

Inductive Result (T E : Type) : Type :=
| Ok (value : T)
| Err (error : E).
Arguments Ok {T E} value.
Arguments Err {T E} error.

(** ** The monad of canister calls *)

Inductive Exception : Type :=
| Error (message : string)  (** [throw new Error(message)] *)
| TypeError                 (** a read, spread or call the engine refuses *)
| RangeError                (** the call stack is used up *)
| HostError                 (** a key or value the host cannot encode *).

Inductive Completion (A : Type) : Type :=
| Normal (value : A)
| Throw (exception : Exception)
| Beyond.
Arguments Normal {A} value.
Arguments Throw {A} exception.
Arguments Beyond {A}.

Abbreviation Storage := (gmap string Product).

Definition Canister (A : Type) : Type := Storage -> Completion A * Storage.

#[global] Instance canister_ret : MRet Canister :=
  fun A (a : A) st => (Normal a, st).

#[global] Instance canister_bind : MBind Canister :=
  fun A B (k : A -> Canister B) (c : Canister A) st =>
    match c st with
    | (Normal a, st') => k a st'
    | (Throw exception, st') => (Throw exception, st')
    | (Beyond, st') => (Beyond, st')
    end.

Definition throw {A} (exception : Exception) : Canister A :=
  fun st => (Throw exception, st).

Definition beyond {A} : Canister A := fun st => (Beyond, st).

(** ** Reads, spreads and conversions *)

(** [v.key]: reading a property of [undefined] or [null] throws. *)
Definition prop (v : Value) (key : string) : Canister Value :=
  match v with
  | Undefined | Null => throw TypeError
  | Obj props => mret (default Undefined (own_prop props key))
  | Arr items =>
      mret (if String.eqb key "length"
            then Num (number_of_nat (length items)) else Undefined)
  | Str s =>
      mret (if String.eqb key "length"
            then Num (number_of_nat (String.length s)) else Undefined)
  | Num _ | BigInt _ => mret Undefined
  end.

(** The elements the spread [[...v]] yields: only what is iterable can be
    spread into an array. *)
Definition spread (v : Value) : Canister (list number) :=
  match v with
  | Arr items => mret items
  | Str "" => mret []
  | Str _ => beyond
  | _ => throw TypeError
  end.

(** [v.reduce((acc, current) => acc + current, 0)]: only an array has
    [reduce]. *)
Definition sum_of (ratings : list number) : number :=
  fold_left PrimFloat.add ratings 0%float.

Definition reduce_sum (v : Value) : Canister number :=
  match v with
  | Arr items => mret (sum_of items)
  | _ => throw TypeError
  end.

(** The number [v] stands for as an operand of [/]. *)
Definition to_number (v : Value) : Canister number :=
  match v with
  | Num x => mret x
  | Undefined => mret nan
  | Null => mret 0%float
  | BigInt _ => throw TypeError
  | Str _ | Arr _ | Obj _ => beyond
  end.

(** ** productStorage *)

(** The [Opt] the map hands back for [key]. *)
Definition stored (st : Storage) (key : string) : Value :=
  match st !! key with
  | Some product => Opt.Some (Product_value product)
  | None => Opt.None
  end.

Module productStorage.
Definition get (key : string) : Canister Value :=
  fun st => (Normal (stored st key), st).

Definition insert (key : Value) (value : Value) : Canister Value :=
  fun st =>
    match key with
    | Str key =>
        match as_Product value with
        | Some product => (Normal (stored st key), <[key := product]> st)
        | None => (Throw HostError, st)
        end
    | _ => (Throw HostError, st)
    end.

Definition remove (key : string) : Canister Value :=
  fun st => (Normal (stored st key), delete key st).
End productStorage.

(** ** validateRating *)

Definition rating_message : string :=
  "Rating should be an integer between 1 and 5.".

Definition validateRating (rating : number) : Canister unit :=
  if (PrimFloat.ltb rating 1%float || gtb rating 5%float)%bool
  then throw (Error rating_message)
  else mret tt.

(** ** Number.prototype.toFixed and parseFloat

    [toFixed] yields a numeric string and [parseFloat] reads one back.  The
    string is kept in parsed form: what matters of it is the number its
    characters denote. *)

Inductive NumericString : Type :=
| StrNaN
| StrInfinity (negative : bool)
| StrFixed (negative : bool) (n : N) (fractionDigits : nat)
    (** the decimal digits of [n], a point before the last [fractionDigits] *)
| StrShortest (x : number)
    (** [Number::toString x]: the shortest digits that read back as [x] *).

(** The integer [n] for which [n / 10^f - m * 2^e] is as close to zero as
    possible, the larger one when there are two. *)
Definition nearest_scaled (m : positive) (e : Z) (f : nat) : Z :=
  let scale := (10 ^ Z.of_nat f)%Z in
  if (0 <=? e)%Z then (Z.pos m * 2 ^ e * scale)%Z
  else ((2 * Z.pos m * scale + 2 ^ (- e)) / 2 ^ (- e + 1))%Z.

(** [m * 2^e >= 10^21] *)
Definition at_least_1e21 (m : positive) (e : Z) : bool :=
  if (0 <=? e)%Z then (10 ^ 21 <=? Z.pos m * 2 ^ e)%Z
  else (10 ^ 21 * 2 ^ (- e) <=? Z.pos m)%Z.

Definition toFixed (x : number) (fractionDigits : nat) : NumericString :=
  match Prim2SF x with
  | S754_nan => StrNaN
  | S754_infinity s => StrInfinity s
  | S754_zero _ => StrFixed false 0 fractionDigits
  | S754_finite s m e =>
      if at_least_1e21 m e then StrShortest x
      else StrFixed s (Z.to_N (nearest_scaled m e fractionDigits)) fractionDigits
  end.

(** The binary64 value nearest to [n / 10^f] (ties to even): the number
    value of the decimal literal. *)
Definition decimal_to_number (negative : bool) (n : N) (f : nat) : number :=
  match n with
  | N0 => if negative then neg_zero else zero
  | Npos p =>
      SF2Prim (SFdiv prec emax (S754_finite negative p 0)
                 (S754_finite false (Z.to_pos (10 ^ Z.of_nat f)) 0))
  end.

Definition parseFloat (s : NumericString) : number :=
  match s with
  | StrNaN => nan
  | StrInfinity negative => if negative then neg_infinity else infinity
  | StrFixed negative n f => decimal_to_number negative n f
  | StrShortest x => x
  end.

(** ** crypto and uuidv4

    The canister sets [globalThis.crypto] to an object whose
    [getRandomValues] calls [crypto.getRandomValues], that is itself:
    every call opens one more call until the stack the host allows is used
    up.  [stack] is the number of calls still allowed. *)

Module crypto.
Fixpoint getRandomValues (stack : nat) (array : list Z) : Canister (list Z) :=
  match stack with
  | O => throw RangeError
  | S stack => getRandomValues stack array
  end.
End crypto.

Definition hex_digit (n : Z) : Ascii.ascii :=
  nth (Z.to_nat n) (String.list_ascii_of_string "0123456789abcdef")
    (Ascii.ascii_of_nat 48).

Definition hex (byte : Z) : string :=
  String (hex_digit (byte / 16)) (String (hex_digit (byte mod 16)) "").

Definition unsafeStringify (rnds : list Z) : string :=
  let byte i := hex (nth i rnds 0%Z) in
  byte 0%nat +:+ byte 1%nat +:+ byte 2%nat +:+ byte 3%nat +:+ "-" +:+
  byte 4%nat +:+ byte 5%nat +:+ "-" +:+
  byte 6%nat +:+ byte 7%nat +:+ "-" +:+
  byte 8%nat +:+ byte 9%nat +:+ "-" +:+
  byte 10%nat +:+ byte 11%nat +:+ byte 12%nat +:+ byte 13%nat +:+
  byte 14%nat +:+ byte 15%nat.

(** [v4()] of the uuid package: sixteen bytes from
    [crypto.getRandomValues], the version and variant bits set, printed in
    hexadecimal. *)
Definition uuidv4 (stack : nat) : Canister string :=
  rnds ← crypto.getRandomValues stack (repeat 0%Z 16);
  let rnds := <[6%nat := Z.lor (Z.land (nth 6 rnds 0%Z) 15) 64]> rnds in
  let rnds := <[8%nat := Z.lor (Z.land (nth 8 rnds 0%Z) 63) 128]> rnds in
  mret (unsafeStringify rnds).

(** ** The exported calls *)

Definition not_found (id : string) : string :=
  "Product with id=" +:+ id +:+ " not found".

(** [!s] on a string: only the empty string is falsy. *)
Definition falsy (s : string) : bool := bool_decide (s = "").

(** [values] is [productStorage.values()]: the stored records in the key
    order of the library, which the canister does not fix. *)
Definition getProducts (values : Storage -> list Product)
  : Canister (Result (list Value) string) :=
  fun st => (Normal (Ok (Product_value <$> values st)), st).

Definition getProduct (id : string) : Canister (Result Value string) :=
  product ← productStorage.get id;
  if strict_equals_null product
  then mret (Err (not_found id))
  else mret (Ok product).

(** [stack] is the depth of call stack the host allows and [now] what
    [ic.time()] yields. *)
Definition addProduct (stack : nat) (now : nat64) (payload : ProductPayload)
  : Canister (Result Value string) :=
  let name := ProductPayload.name payload in
  let description := ProductPayload.description payload in
  let URL := ProductPayload.URL payload in
  if (falsy name || falsy description || falsy URL)%bool
  then mret (Err "Missing required fields")
  else
    id ← uuidv4 stack;
    let product :=
      Obj [("id", Str id);
           ("Ratings", Arr []);
           ("created_at", BigInt now);
           ("updated_at", Opt.None);
           ("name", Str name);
           ("description", Str description);
           ("URL", Str URL)] in
    product_id ← prop product "id";
    productStorage.insert product_id product;;
    mret (Ok product).

(** Lines 71 to 77 of [calculateAverageRating], for the value of
    [product]. *)
Definition averageRating (product : Value) : Canister (Result Value string) :=
  ratings ← prop product "Ratings";
  length ← prop ratings "length";
  if strict_equals_number length 0%float
  then mret (Ok (Num 0%float))
  else
    ratings ← prop product "Ratings";
    sum ← reduce_sum ratings;
    ratings ← prop product "Ratings";
    length ← prop ratings "length";
    length ← to_number length;
    let averageRating := parseFloat (toFixed (sum / length)%float 2) in
    mret (Ok (Num averageRating)).

Definition calculateAverageRating (id : string)
  : Canister (Result Value string) :=
  product ← productStorage.get id;
  if strict_equals_null product
  then mret (Err (not_found id))
  else averageRating product.

Definition rateProduct (id : string) (rating : number)
  : Canister (Result Value string) :=
  product ← productStorage.get id;
  if strict_equals_null product
  then mret (Err "Product not found.")
  else
    validateRating rating;;
    ratings ← prop product "Ratings";
    items ← spread ratings;
    let updatedProduct :=
      Obj (set_prop (own_props product) "Ratings" (Arr (items ++ [rating]))) in
    productStorage.insert (Str id) updatedProduct;;
    mret (Ok updatedProduct).

(** [now] is what [ic.time()] yields. *)
Definition updateProduct (now : nat64) (id : string) (payload : ProductPayload)
  : Canister (Result Value string) :=
  product ← productStorage.get id;
  if strict_equals_null product
  then mret (Err (not_found id))
  else
    let updatedProduct :=
      Obj (set_prop (assign (own_props product) (ProductPayload_props payload))
             "updated_at" (Opt.Some (BigInt now))) in
    product_id ← prop product "id";
    productStorage.insert product_id updatedProduct;;
    mret (Ok updatedProduct).

Definition deleteProduct (id : string) : Canister (Result Value string) :=
  deletedProduct ← productStorage.remove id;
  if strict_equals_null deletedProduct
  then mret (Err (not_found id))
  else mret (Ok deletedProduct).

(** ** Reachable stores

    The store starts empty and changes only through the calls that write to
    it.  A call that throws is rolled back by the host; in this canister a
    throwing call has written nothing, so keeping its store is the same. *)

Inductive Call : Type :=
| CallAdd (stack : nat) (now : nat64) (payload : ProductPayload)
| CallRate (id : string) (rating : number)
| CallUpdate (now : nat64) (id : string) (payload : ProductPayload)
| CallDelete (id : string).

Definition perform (st : Storage) (c : Call) : Storage :=
  match c with
  | CallAdd stack now payload => snd (addProduct stack now payload st)
  | CallRate id rating => snd (rateProduct id rating st)
  | CallUpdate now id payload => snd (updateProduct now id payload st)
  | CallDelete id => snd (deleteProduct id st)
  end.

Definition run (calls : list Call) : Storage := fold_left perform calls ∅.

Definition reachable (st : Storage) : Prop := exists calls, run calls = st.
(** * Vocabulary of the properties *)

(** ** Ratings *)

(** A rating as the data model has it: one of the integers 1 to 5. *)
Definition integer_rating (r : number) : Prop := In r [1; 2; 3; 4; 5]%float.


(** [values] lists every stored record once. *)
Definition enumerates (values : Storage -> list Product) : Prop :=
  forall st, values st ≡ₚ (map_to_list st).*2.

(** An enumeration: the values in the order of [map_to_list]. *)
Definition values_of (st : Storage) : list Product := (map_to_list st).*2.

(** ** Exact values and means *)

(** The rational a finite number denotes; 0 for NaN and the infinities. *)
Definition Qvalue (x : number) : Q :=
  match Prim2SF x with
  | S754_finite s m e => inject_Z (cond_Zopp s (Z.pos m)) * 2 ^ e
  | _ => 0
  end.

(** The mean as the canister computes it, in binary64 arithmetic. *)
Definition float_mean (ratings : list number) : number :=
  (sum_of ratings / number_of_nat (length ratings))%float.

(** The exact mean of the numbers the ratings denote. *)
Definition exact_mean (ratings : list number) : Q :=
  fold_right (fun r acc => Qvalue r + acc)%Q 0%Q ratings
  / inject_Z (Z.of_nat (length ratings)).

(** [n / 100] is a hundredth nearest to [x] (either one of two). *)
Definition nearest_hundredth (x : Q) (n : Z) : Prop :=
  (Qabs (100 * x - inject_Z n) <= 1 # 2)%Q.

(** ** Integers in binary64 *)

(** The 53-bit mantissa of a positive integer below [2^53]. *)
Definition mantissa (z : Z) : positive := Z.to_pos (z * 2 ^ (52 - Z.log2 z)).

(** A shifted mantissa with no bit lost so far. *)
Definition exact_record (m : Z) : shr_record :=
  {| shr_m := m; shr_r := false; shr_s := false |}.

Definition Zsum (zs : list Z) : Z := fold_right Z.add 0%Z zs.

(** ** A small store *)

Definition sample_payload : ProductPayload :=
  {| ProductPayload.name := "kettle";
     ProductPayload.description := "1.7 l";
     ProductPayload.URL := "https://example.org/kettle" |}.

Definition other_payload : ProductPayload :=
  {| ProductPayload.name := "teapot";
     ProductPayload.description := "";
     ProductPayload.URL := "https://example.org/teapot" |}.

Definition sample_product : Product :=
  {| Product.id := "p1";
     Product.name := "kettle";
     Product.description := "1.7 l";
     Product.URL := "https://example.org/kettle";
     Product.Ratings := [4; 5]%float;
     Product.created_at := 0%N;
     Product.updated_at := None |}.

(** A store that holds [sample_product] under its id. *)
Definition sample_store : Storage := {[ "p1" := sample_product ]}.
(** * Lemmas *)

(** ** Comparisons of numbers *)

Lemma SFcompare_antisym (x y : spec_float) (c : comparison) :
  SFcompare x y = Some c -> SFcompare y x = Some (CompOpp c).
Proof.
  destruct x as [sx|sx| |sx mx ex], y as [sy|sy| |sy my ey]; simpl;
    try discriminate;
    try (intros [= <-]; repeat match goal with b : bool |- _ => destruct b end;
         reflexivity).
  intros [= <-]. f_equal.
  destruct sx, sy; simpl; try reflexivity;
    rewrite (Z.compare_antisym ex ey);
    destruct (ex ?= ey)%Z; simpl; try reflexivity;
    change (Pos.compare_cont Eq my mx) with (my ?= mx)%positive;
    change (Pos.compare_cont Eq mx my) with (mx ?= my)%positive;
    rewrite (Pos.compare_antisym mx my);
    destruct (mx ?= my)%positive; reflexivity.
Qed.

Lemma leb_true_ltb_false (a b : number) :
  (a <=? b)%float = true -> (b <? a)%float = false.
Proof.
  rewrite leb_spec, ltb_spec. unfold SFleb, SFltb.
  destruct (SFcompare (Prim2SF a) (Prim2SF b)) as [c|] eqn:E; [|discriminate].
  rewrite (SFcompare_antisym _ _ _ E).
  destruct c; simpl; congruence.
Qed.

Lemma ltb_nan_l (b : number) : (nan <? b)%float = false.
Proof. rewrite ltb_spec. reflexivity. Qed.

Lemma ltb_nan_r (a : number) : (a <? nan)%float = false.
Proof.
  rewrite ltb_spec. unfold SFltb. simpl.
  destruct (Prim2SF a); reflexivity.
Qed.

Lemma SFcompare_defined (x y : spec_float) :
  x <> S754_nan -> y <> S754_nan -> exists c, SFcompare x y = Some c.
Proof.
  intros Hx Hy.
  destruct x as [sx|sx| |sx mx ex], y as [sy|sy| |sy my ey];
    try congruence; simpl; eexists; reflexivity.
Qed.

Lemma Prim2SF_not_nan (x : number) : x <> nan -> Prim2SF x <> S754_nan.
Proof.
  intros Hx H. apply Hx. rewrite <- (SF2Prim_Prim2SF x), H. reflexivity.
Qed.

Lemma ltb_false_leb_true (a b : number) :
  a <> nan -> b <> nan -> (a <? b)%float = false -> (b <=? a)%float = true.
Proof.
  intros Ha Hb. rewrite leb_spec, ltb_spec. unfold SFleb, SFltb.
  destruct (SFcompare_defined _ _ (Prim2SF_not_nan a Ha) (Prim2SF_not_nan b Hb))
    as [c Hc].
  rewrite Hc, (SFcompare_antisym _ _ _ Hc).
  destruct c; simpl; congruence.
Qed.

Lemma in_range_or_nan (r : number) :
  (r <? 1)%float = false -> (5 <? r)%float = false ->
  r = nan \/ ((1 <=? r)%float = true /\ (r <=? 5)%float = true).
Proof.
  intros Hlo Hhi.
  destruct (PrimFloat.Leibniz.eqb r nan) eqn:E.
  - left. apply FloatAxioms.Leibniz.eqb_spec. exact E.
  - right.
    assert (r <> nan) as Hr.
    { intros H. apply FloatAxioms.Leibniz.eqb_spec in H. congruence. }
    split; apply ltb_false_leb_true; try assumption; discriminate.
Qed.

(** ** What the map hands back *)

Lemma stored_not_null (st : Storage) (key : string) :
  strict_equals_null (stored st key) = false.
Proof. unfold stored. destruct (st !! key); reflexivity. Qed.

Lemma stored_Ratings (st st' : Storage) (key : string) :
  prop (stored st key) "Ratings" st' = (Normal Undefined, st').
Proof. unfold stored. destruct (st !! key); reflexivity. Qed.

Lemma stored_id (st st' : Storage) (key : string) :
  prop (stored st key) "id" st' = (Normal Undefined, st').
Proof. unfold stored. destruct (st !! key); reflexivity. Qed.


Lemma as_Product_value (product : Product) :
  as_Product (Product_value product) = Some product.
Proof. destruct product as [? ? ? ? ? ? [t|]]; reflexivity. Qed.

(** ** The calls, one step at a time *)

Ltac unfold_call :=
  unfold getProduct, addProduct, calculateAverageRating, averageRating,
    rateProduct, updateProduct, deleteProduct, validateRating, throw,
    productStorage.get, productStorage.insert, productStorage.remove,
    mbind, canister_bind, mret, canister_ret, gtb.

Lemma validateRating_throws (rating : number) (st : Storage) :
  ((rating <? 1)%float = true \/ (5 <? rating)%float = true) ->
  validateRating rating st = (Throw (Error rating_message), st).
Proof.
  unfold_call. intros [-> | ->]; [reflexivity|].
  rewrite orb_true_r. reflexivity.
Qed.

Lemma validateRating_passes (rating : number) (st : Storage) :
  (rating <? 1)%float = false -> (5 <? rating)%float = false ->
  validateRating rating st = (Normal tt, st).
Proof. unfold_call. intros -> ->. reflexivity. Qed.

Lemma getProduct_returns (st : Storage) (id : string) :
  getProduct id st = (Normal (Ok (stored st id)), st).
Proof. unfold_call. rewrite stored_not_null. reflexivity. Qed.

Lemma deleteProduct_returns (st : Storage) (id : string) :
  deleteProduct id st = (Normal (Ok (stored st id)), delete id st).
Proof. unfold_call. rewrite stored_not_null. reflexivity. Qed.

Lemma rateProduct_throws (st : Storage) (id : string) (rating : number) :
  rateProduct id rating st
  = (Throw (if ((rating <? 1)%float || (5 <? rating)%float)%bool
            then Error rating_message else TypeError), st).
Proof.
  unfold_call. rewrite stored_not_null.
  destruct ((rating <? 1)%float || (5 <? rating)%float)%bool; [reflexivity|].
  rewrite stored_Ratings. reflexivity.
Qed.

Lemma calculateAverageRating_throws (st : Storage) (id : string) :
  calculateAverageRating id st = (Throw TypeError, st).
Proof. unfold_call. rewrite stored_not_null, stored_Ratings. reflexivity. Qed.

Lemma updateProduct_throws (st : Storage) (now : nat64) (id : string)
    (payload : ProductPayload) :
  updateProduct now id payload st = (Throw HostError, st).
Proof. unfold_call. rewrite stored_not_null, stored_id. reflexivity. Qed.

Lemma getRandomValues_throws (stack : nat) (array : list Z) (st : Storage) :
  crypto.getRandomValues stack array st = (Throw RangeError, st).
Proof. induction stack as [|stack IH]; [reflexivity | exact IH]. Qed.

Lemma uuidv4_throws (stack : nat) (st : Storage) :
  uuidv4 stack st = (Throw RangeError, st).
Proof.
  unfold uuidv4, mbind, canister_bind. rewrite getRandomValues_throws.
  reflexivity.
Qed.

Lemma falsy_false (s : string) : s <> "" -> falsy s = false.
Proof. intros Hs. unfold falsy. apply bool_decide_eq_false. exact Hs. Qed.

Lemma falsy_true (s : string) : s = "" -> falsy s = true.
Proof. intros Hs. unfold falsy. apply bool_decide_eq_true. exact Hs. Qed.

Lemma addProduct_invalid (st : Storage) (stack : nat) (now : nat64)
    (payload : ProductPayload) :
  ProductPayload.name payload = "" \/
  ProductPayload.description payload = "" \/
  ProductPayload.URL payload = "" ->
  addProduct stack now payload st = (Normal (Err "Missing required fields"), st).
Proof.
  intros H. unfold_call.
  destruct H as [H | [H | H]]; rewrite (falsy_true _ H);
    rewrite ?orb_true_r; reflexivity.
Qed.

Lemma addProduct_valid (st : Storage) (stack : nat) (now : nat64)
    (payload : ProductPayload) :
  ProductPayload.name payload <> "" ->
  ProductPayload.description payload <> "" ->
  ProductPayload.URL payload <> "" ->
  addProduct stack now payload st = (Throw RangeError, st).
Proof.
  intros Hn Hd Hu. unfold addProduct.
  rewrite (falsy_false _ Hn), (falsy_false _ Hd), (falsy_false _ Hu).
  cbn [orb]. unfold mbind, canister_bind. rewrite uuidv4_throws. reflexivity.
Qed.

Lemma addProduct_store (st : Storage) (stack : nat) (now : nat64)
    (payload : ProductPayload) :
  snd (addProduct stack now payload st) = st.
Proof.
  destruct (decide (ProductPayload.name payload = "")) as [Hn | Hn];
    [rewrite addProduct_invalid by tauto; reflexivity|].
  destruct (decide (ProductPayload.description payload = "")) as [Hd | Hd];
    [rewrite addProduct_invalid by tauto; reflexivity|].
  destruct (decide (ProductPayload.URL payload = "")) as [Hu | Hu];
    [rewrite addProduct_invalid by tauto; reflexivity|].
  rewrite addProduct_valid by assumption. reflexivity.
Qed.

(** ** The store along the calls *)

Lemma perform_cases (st : Storage) (c : Call) :
  perform st c
  = match c with
    | CallDelete id => delete id st
    | _ => st
    end.
Proof.
  destruct c as [stack now payload|id rating|now id payload|id]; simpl.
  - apply addProduct_store.
  - rewrite rateProduct_throws. reflexivity.
  - rewrite updateProduct_throws. reflexivity.
  - rewrite deleteProduct_returns. reflexivity.
Qed.

Lemma perform_lookup (st : Storage) (c : Call) (key : string)
    (product : Product) :
  perform st c !! key = Some product -> st !! key = Some product.
Proof.
  rewrite perform_cases. destruct c; try (intros Hget; exact Hget).
  rewrite lookup_delete. case_decide; [discriminate | intros Hget; exact Hget].
Qed.

Lemma run_snoc (calls : list Call) (c : Call) :
  run (calls ++ [c]) = perform (run calls) c.
Proof. unfold run. rewrite fold_left_app. reflexivity. Qed.

Lemma run_empty (calls : list Call) : run calls = ∅.
Proof.
  induction calls as [|c calls IH] using rev_ind; [reflexivity|].
  rewrite run_snoc, IH, perform_cases. destruct c; reflexivity.
Qed.


(** ** binary64 arithmetic on small integers *)

Lemma fexp_small (e : Z) : (-1021 <= e)%Z -> fexp prec emax e = (e - 53)%Z.
Proof. intros He. unfold fexp, emin, prec, emax. lia. Qed.

Lemma digits2_pos_log2 (p : positive) :
  Z.pos (digits2_pos p) = (Z.log2 (Z.pos p) + 1)%Z.
Proof.
  induction p as [p IH|p IH|]; simpl digits2_pos; try reflexivity;
    rewrite Pos2Z.inj_succ, IH.
  - rewrite Pos2Z.inj_xI, Z.log2_succ_double by lia. lia.
  - rewrite Pos2Z.inj_xO, Z.log2_double by lia. lia.
Qed.

Lemma pos_iter_xO (p k : positive) :
  Z.pos (Pos.iter xO p k) = (Z.pos p * 2 ^ Z.pos k)%Z.
Proof.
  induction k as [|k IH] using Pos.peano_ind.
  - simpl. lia.
  - rewrite Pos.iter_succ, Pos2Z.inj_xO, IH, Pos2Z.inj_succ, Z.pow_succ_r by lia.
    ring.
Qed.

Lemma iter_shr_1_exact (k p : positive) :
  SpecFloat.iter_pos shr_1 k (exact_record (Z.pos (Pos.iter xO p k)))
  = exact_record (Z.pos p).
Proof.
  revert p. induction k as [k IH|k IH|]; intros p.
  - change (Pos.iter xO p k~1) with (xO (Pos.iter xO (Pos.iter xO p k) k)).
    change (SpecFloat.iter_pos shr_1 k~1 ?x)
      with (SpecFloat.iter_pos shr_1 k (SpecFloat.iter_pos shr_1 k (shr_1 x))).
    change (shr_1 (exact_record (Z.pos (xO ?q)))) with (exact_record (Z.pos q)).
    rewrite !IH. reflexivity.
  - change (Pos.iter xO p k~0) with (Pos.iter xO (Pos.iter xO p k) k).
    change (SpecFloat.iter_pos shr_1 k~0 ?x)
      with (SpecFloat.iter_pos shr_1 k (SpecFloat.iter_pos shr_1 k x)).
    rewrite !IH. reflexivity.
  - reflexivity.
Qed.

(** Rounding a mantissa of 53 bits followed by [k] zero bits is exact. *)
Lemma binary_round_aux_exact (s : bool) (p : positive) (k e : Z) :
  (2 ^ 52 <= Z.pos p < 2 ^ 53)%Z -> (0 <= k)%Z ->
  (-1074 <= e)%Z -> (e + k <= 971)%Z ->
  binary_round_aux prec emax s (Z.pos p * 2 ^ k) e loc_Exact
  = S754_finite s p (e + k).
Proof.
  intros Hp Hk He Hek.
  assert (Z.log2 (Z.pos p) = 52%Z) as Hlog.
  { apply Z.log2_unique; lia. }
  assert (forall e0, (-1074 <= e0 <= 971)%Z ->
            shr_fexp prec emax (Z.pos p) e0 loc_Exact = (exact_record (Z.pos p), e0))
    as Hfix.
  { intros e0 He0. unfold shr_fexp. simpl Zdigits2.
    rewrite digits2_pos_log2, Hlog.
    replace (fexp prec emax (52 + 1 + e0) - e0)%Z with 0%Z
      by (unfold fexp, emin, prec, emax; lia).
    reflexivity. }
  unfold binary_round_aux.
  assert (shr_fexp prec emax (Z.pos p * 2 ^ k) e loc_Exact
          = (exact_record (Z.pos p), (e + k)%Z)) as ->.
  { destruct k as [|k|k]; [| |lia].
    - rewrite Z.pow_0_r, Z.mul_1_r, Z.add_0_r. apply Hfix. lia.
    - rewrite <- pos_iter_xO. unfold shr_fexp. simpl Zdigits2.
      rewrite digits2_pos_log2, pos_iter_xO, Z.log2_mul_pow2, Hlog by lia.
      match goal with
      | |- context [(fexp prec emax ?a - e)%Z] =>
          replace (fexp prec emax a - e)%Z with (Z.pos k)
            by (unfold fexp, emin, prec, emax; lia)
      end.
      unfold shr. simpl shr_record_of_loc.
      rewrite <- pos_iter_xO.
      change {| shr_m := Z.pos (Pos.iter xO p k); shr_r := false; shr_s := false |}
        with (exact_record (Z.pos (Pos.iter xO p k))).
      rewrite iter_shr_1_exact. reflexivity. }
  simpl shr_m. simpl loc_of_shr_record. simpl round_nearest_even.
  rewrite Hfix by lia. simpl shr_m.
  replace (e + k <=? emax - prec)%Z with true; [reflexivity|].
  symmetry. apply Z.leb_le. unfold emax, prec. lia.
Qed.

Lemma mantissa_bounds (z : Z) :
  (0 < z < 2 ^ 53)%Z ->
  Z.pos (mantissa z) = (z * 2 ^ (52 - Z.log2 z))%Z /\
  (0 <= Z.log2 z <= 52)%Z /\
  (2 ^ 52 <= Z.pos (mantissa z) < 2 ^ 53)%Z.
Proof.
  intros Hz.
  pose proof (Z.log2_spec z ltac:(lia)) as Hlog.
  pose proof (Z.log2_nonneg z) as Hnn.
  assert (Z.log2 z <= 52)%Z as Hle.
  { assert (Z.log2 z < 53)%Z; [|lia]. apply Z.log2_lt_pow2; lia. }
  assert (0 < 2 ^ (52 - Z.log2 z))%Z as Hpow by (apply Z.pow_pos_nonneg; lia).
  unfold mantissa. rewrite Z2Pos.id by nia.
  split; [reflexivity|]. split; [lia|].
  replace (2 ^ 52)%Z with (2 ^ Z.log2 z * 2 ^ (52 - Z.log2 z))%Z
    by (rewrite <- Z.pow_add_r by lia; f_equal; lia).
  replace (2 ^ 53)%Z with (2 ^ Z.succ (Z.log2 z) * 2 ^ (52 - Z.log2 z))%Z
    by (rewrite <- Z.pow_add_r by lia; f_equal; lia).
  nia.
Qed.

Lemma binary_round_aux_fixed (s : bool) (p : positive) (e : Z) :
  (2 ^ 52 <= Z.pos p < 2 ^ 53)%Z -> (-1074 <= e <= 971)%Z ->
  binary_round_aux prec emax s (Z.pos p) e loc_Exact = S754_finite s p e.
Proof.
  intros Hp He.
  pose proof (binary_round_aux_exact s p 0 e Hp ltac:(lia) ltac:(lia) ltac:(lia))
    as H.
  rewrite Z.pow_0_r, Z.mul_1_r, Z.add_0_r in H. exact H.
Qed.

Lemma binary_normalize_small (z : Z) :
  (0 < z < 2 ^ 53)%Z ->
  binary_normalize prec emax z 0 false
  = S754_finite false (mantissa z) (Z.log2 z - 52).
Proof.
  intros Hz. destruct (mantissa_bounds z Hz) as (Hm & Hlog & Hb).
  destruct z as [|p|p]; try lia.
  unfold binary_normalize, binary_round.
  rewrite digits2_pos_log2, Z.add_0_r, fexp_small by lia.
  unfold shl_align.
  replace (Z.log2 (Z.pos p) + 1 - 53 - 0)%Z with (- (52 - Z.log2 (Z.pos p)))%Z by lia.
  destruct (52 - Z.log2 (Z.pos p))%Z as [|d|d] eqn:Hd; try lia;
    [change (- 0)%Z with 0%Z | change (- Z.pos d)%Z with (Z.neg d)];
    cbv iota beta.
  - assert (mantissa (Z.pos p) = p) as Hmp.
    { apply Pos2Z.inj. rewrite Hm, Z.pow_0_r. lia. }
    rewrite Hmp in Hb |- *.
    rewrite binary_round_aux_fixed by lia. f_equal. lia.
  - assert (mantissa (Z.pos p) = Pos.iter xO p d) as Hmp.
    { apply Pos2Z.inj. rewrite Hm, pos_iter_xO. reflexivity. }
    rewrite Hmp in Hb |- *.
    rewrite binary_round_aux_fixed by lia. f_equal. lia.
Qed.

Lemma binary_normalize_exact (p : positive) (k e : Z) :
  (2 ^ 52 <= Z.pos p < 2 ^ 53)%Z -> (0 <= k)%Z ->
  (-1074 <= e)%Z -> (e + k <= 971)%Z ->
  binary_normalize prec emax (Z.pos p * 2 ^ k) e false
  = S754_finite false p (e + k).
Proof.
  intros Hp Hk He Hek.
  assert (0 < 2 ^ k)%Z as Hpow by (apply Z.pow_pos_nonneg; lia).
  assert (Z.log2 (Z.pos p) = 52%Z) as Hlog by (apply Z.log2_unique; lia).
  destruct (Z.pos p * 2 ^ k)%Z as [|q|q] eqn:Hq; try lia.
  unfold binary_normalize, binary_round.
  rewrite digits2_pos_log2, <- Hq, Z.log2_mul_pow2, Hlog by lia.
  unfold shl_align.
  destruct (fexp prec emax (k + 52 + 1 + e) - e)%Z as [|d|d] eqn:Hd;
    try (exfalso; revert Hd; unfold fexp, emin, prec, emax; lia);
    cbv iota beta; rewrite <- Hq; apply binary_round_aux_exact; lia.
Qed.

Lemma shl_align_fst (m : positive) (e e' : Z) :
  (e' <= e)%Z -> Z.pos (fst (shl_align m e e')) = (Z.pos m * 2 ^ (e - e'))%Z.
Proof.
  intros He. unfold shl_align.
  destruct (e' - e)%Z as [|d|d] eqn:Hd; try lia; simpl fst.
  - replace (e - e')%Z with 0%Z by lia. lia.
  - rewrite pos_iter_xO. f_equal. f_equal. lia.
Qed.

Lemma SF64add_small (a b : Z) :
  (0 < a)%Z -> (0 < b)%Z -> (a + b < 2 ^ 53)%Z ->
  SF64add (S754_finite false (mantissa a) (Z.log2 a - 52))
          (S754_finite false (mantissa b) (Z.log2 b - 52))
  = S754_finite false (mantissa (a + b)) (Z.log2 (a + b) - 52).
Proof.
  intros Ha Hb Hab.
  destruct (mantissa_bounds a ltac:(lia)) as (Hma & Hla & _).
  destruct (mantissa_bounds b ltac:(lia)) as (Hmb & Hlb & _).
  destruct (mantissa_bounds (a + b) ltac:(lia)) as (Hmc & Hlc & Hbc).
  pose proof (Z.log2_le_mono a (a + b) ltac:(lia)) as Hac.
  pose proof (Z.log2_le_mono b (a + b) ltac:(lia)) as Hbc'.
  unfold SF64add, SFadd. cbv zeta. unfold cond_Zopp.
  set (ez := Z.min (Z.log2 a - 52) (Z.log2 b - 52)).
  rewrite !shl_align_fst by lia.
  replace (Z.pos (mantissa a) * 2 ^ (Z.log2 a - 52 - ez)
           + Z.pos (mantissa b) * 2 ^ (Z.log2 b - 52 - ez))%Z
    with (Z.pos (mantissa (a + b)) * 2 ^ (Z.log2 (a + b) - 52 - ez))%Z.
  - rewrite binary_normalize_exact by lia. f_equal. lia.
  - rewrite Hma, Hmb, Hmc, <- !Z.mul_assoc, <- !Z.pow_add_r by lia.
    replace (52 - Z.log2 (a + b) + (Z.log2 (a + b) - 52 - ez))%Z with (- ez)%Z by lia.
    replace (52 - Z.log2 a + (Z.log2 a - 52 - ez))%Z with (- ez)%Z by lia.
    replace (52 - Z.log2 b + (Z.log2 b - 52 - ez))%Z with (- ez)%Z by lia.
    ring.
Qed.

Lemma Prim2SF_number_of_Z (z : Z) :
  (0 < z < 2 ^ 53)%Z ->
  Prim2SF (number_of_Z z) = S754_finite false (mantissa z) (Z.log2 z - 52).
Proof.
  intros Hz. destruct (mantissa_bounds z Hz) as (Hm & Hlog & Hb).
  unfold number_of_Z. rewrite binary_normalize_small by exact Hz.
  apply Prim2SF_SF2Prim. unfold valid_binary, bounded, canonical_mantissa.
  rewrite digits2_pos_log2.
  replace (Z.log2 (Z.pos (mantissa z))) with 52%Z
    by (symmetry; apply Z.log2_unique; lia).
  apply andb_true_intro. split.
  - apply Z.eqb_eq. unfold fexp, emin, prec, emax. lia.
  - apply Z.leb_le. unfold prec, emax. lia.
Qed.

Lemma Prim2SF_inj (x y : number) : Prim2SF x = Prim2SF y -> x = y.
Proof.
  intros H. rewrite <- (SF2Prim_Prim2SF x), <- (SF2Prim_Prim2SF y), H.
  reflexivity.
Qed.

Lemma number_of_Z_add (a b : Z) :
  (0 <= a)%Z -> (0 < b)%Z -> (a + b < 2 ^ 53)%Z ->
  (number_of_Z a + number_of_Z b)%float = number_of_Z (a + b).
Proof.
  intros Ha Hb Hab. apply Prim2SF_inj.
  rewrite add_spec, (Prim2SF_number_of_Z b), (Prim2SF_number_of_Z (a + b)) by lia.
  destruct (Z.eq_dec a 0%Z) as [-> | Hne].
  - reflexivity.
  - rewrite (Prim2SF_number_of_Z a) by lia. apply SF64add_small; lia.
Qed.

Lemma sum_of_integers (zs : list Z) (acc : Z) :
  (0 <= acc)%Z -> Forall (fun z => 1 <= z <= 5)%Z zs ->
  (acc + Zsum zs < 2 ^ 53)%Z ->
  fold_left PrimFloat.add (map number_of_Z zs) (number_of_Z acc)
  = number_of_Z (acc + Zsum zs).
Proof.
  intros Hacc Hzs. revert acc Hacc.
  induction Hzs as [|z zs Hz Hzs IH]; intros acc Hacc Hsum; simpl in *.
  - f_equal. lia.
  - assert (0 <= Zsum zs)%Z as Hnn.
    { clear -Hzs. induction Hzs; simpl; lia. }
    rewrite number_of_Z_add by lia. rewrite IH by lia. f_equal. lia.
Qed.

(** ** binary64 division, up to a few units in the last place *)

Lemma shr_1_m (r : shr_record) :
  (0 <= shr_m r)%Z -> shr_m (shr_1 r) = (shr_m r / 2)%Z.
Proof.
  destruct r as [m b s]. simpl shr_m. intros Hm.
  destruct m as [|[p|p|]|p]; try lia; unfold shr_1.
  - reflexivity.
  - apply (Z.div_unique (Z.pos p~1) 2 (Z.pos p) 1); lia.
  - apply (Z.div_unique (Z.pos p~0) 2 (Z.pos p) 0); lia.
  - reflexivity.
Qed.

Lemma iter_shr_1_m (k : positive) (r : shr_record) :
  (0 <= shr_m r)%Z ->
  shr_m (SpecFloat.iter_pos shr_1 k r) = (shr_m r / 2 ^ Z.pos k)%Z.
Proof.
  revert r. induction k as [k IH|k IH|]; intros r Hr.
  - change (SpecFloat.iter_pos shr_1 k~1 r)
      with (SpecFloat.iter_pos shr_1 k (SpecFloat.iter_pos shr_1 k (shr_1 r))).
    assert (0 <= shr_m (shr_1 r))%Z as H1
        by (rewrite shr_1_m by lia; apply Z.div_pos; lia).
    assert (0 <= shr_m (SpecFloat.iter_pos shr_1 k (shr_1 r)))%Z as H2
        by (rewrite IH by lia; apply Z.div_pos; lia).
    rewrite IH, IH, shr_1_m by lia.
    rewrite !Z.div_div by lia. f_equal.
    replace (Z.pos k~1) with (1 + Z.pos k + Z.pos k)%Z by lia.
    rewrite !Z.pow_add_r, Z.pow_1_r by lia. ring.
  - change (SpecFloat.iter_pos shr_1 k~0 r)
      with (SpecFloat.iter_pos shr_1 k (SpecFloat.iter_pos shr_1 k r)).
    assert (0 <= shr_m (SpecFloat.iter_pos shr_1 k r))%Z as H2
        by (rewrite IH by lia; apply Z.div_pos; lia).
    rewrite IH, IH by lia.
    rewrite Z.div_div by lia. f_equal.
    rewrite <- Z.pow_add_r by lia. f_equal. lia.
  - simpl. rewrite shr_1_m by lia. reflexivity.
Qed.

Lemma shr_fexp_m (m e : Z) (l : location) :
  (0 < m)%Z ->
  let k := Z.max 0 (fexp prec emax (Z.log2 m + 1 + e) - e) in
  shr_m (fst (shr_fexp prec emax m e l)) = (m / 2 ^ k)%Z /\
  snd (shr_fexp prec emax m e l) = (e + k)%Z.
Proof.
  intros Hm k. subst k. unfold shr_fexp.
  assert (Zdigits2 m = Z.log2 m + 1)%Z as ->.
  { destruct m as [|p|p]; try lia. simpl. apply digits2_pos_log2. }
  assert (shr_m (shr_record_of_loc m l) = m) as Hrec
      by (destruct l as [|[]]; reflexivity).
  unfold shr.
  destruct (fexp prec emax (Z.log2 m + 1 + e) - e)%Z as [|d|d] eqn:Hd; simpl fst; simpl snd.
  - rewrite Hrec, Z.div_1_r. split; [reflexivity | lia].
  - rewrite iter_shr_1_m by (rewrite Hrec; lia).
    rewrite Hrec. replace (Z.max 0 (Z.pos d)) with (Z.pos d) by lia.
    split; reflexivity.
  - rewrite Hrec. replace (Z.max 0 (Z.neg d)) with 0%Z by lia.
    rewrite Z.div_1_r. split; [reflexivity | lia].
Qed.

Lemma round_nearest_even_bounds (m : Z) (l : location) :
  (m <= round_nearest_even m l <= m + 1)%Z.
Proof.
  unfold round_nearest_even. destruct l as [|[]]; try lia.
  destruct (Z.even m); lia.
Qed.

Lemma log2_52_or_53 (q : Z) :
  (2 ^ 52 <= q < 2 ^ 54)%Z -> Z.log2 q = 52%Z \/ Z.log2 q = 53%Z.
Proof.
  intros Hq.
  assert (52 <= Z.log2 q)%Z by (apply Z.log2_le_pow2; lia).
  assert (Z.log2 q < 54)%Z by (apply Z.log2_lt_pow2; lia).
  lia.
Qed.

Lemma binary_round_aux_crude (q e : Z) (l : location) :
  (2 ^ 52 <= q < 2 ^ 54)%Z -> (-1074 <= e <= 900)%Z ->
  exists (m : positive) (t : Z),
    binary_round_aux prec emax false q e l = S754_finite false m (e + t) /\
    (0 <= t <= 2)%Z /\
    (q - 8 <= Z.pos m * 2 ^ t <= q + 8)%Z /\
    (Z.pos m <= 2 ^ 53)%Z.
Proof.
  intros Hq He. unfold binary_round_aux.
  destruct (shr_fexp_m q e l ltac:(lia)) as [Hm1 He1]. cbv zeta in Hm1, He1.
  destruct (shr_fexp prec emax q e l) as [mrs1 e1]. simpl fst in Hm1. simpl snd in He1.
  set (r := round_nearest_even (shr_m mrs1) (loc_of_shr_record mrs1)).
  pose proof (round_nearest_even_bounds (shr_m mrs1) (loc_of_shr_record mrs1)) as Hr.
  fold r in Hr. rewrite Hm1 in Hr.
  set (k1 := Z.max 0 (fexp prec emax (Z.log2 q + 1 + e) - e)) in *.
  assert ((k1 = 0 /\ q < 2 ^ 53) \/ (k1 = 1 /\ 2 ^ 53 <= q))%Z as Hk1.
  { destruct (log2_52_or_53 q Hq) as [Hl | Hl].
    - left. split; [subst k1; rewrite Hl; unfold fexp, emin, prec, emax; lia|].
      apply Z.log2_lt_pow2; lia.
    - right. split; [subst k1; rewrite Hl; unfold fexp, emin, prec, emax; lia|].
      apply Z.log2_le_pow2; lia. }
  assert (2 ^ 52 <= q / 2 ^ k1 < 2 ^ 53)%Z as Hq1.
  { destruct Hk1 as [[-> Hlt] | [-> Hge]].
    - rewrite Z.pow_0_r, Z.div_1_r. lia.
    - rewrite Z.pow_1_r. split.
      + apply Z.div_le_lower_bound; lia.
      + apply Z.div_lt_upper_bound; lia. }
  assert (q - 2 ^ k1 < q / 2 ^ k1 * 2 ^ k1 <= q)%Z as Hq2.
  { assert (0 < 2 ^ k1)%Z as Hp by (apply Z.pow_pos_nonneg; lia).
    pose proof (Z.div_mod q (2 ^ k1) ltac:(lia)).
    pose proof (Z.mod_pos_bound q (2 ^ k1) Hp). lia. }
  destruct (shr_fexp_m r e1 loc_Exact ltac:(lia)) as [Hm2 He2]. cbv zeta in Hm2, He2.
  destruct (shr_fexp prec emax r e1 loc_Exact) as [mrs2 e2].
  simpl fst in Hm2. simpl snd in He2.
  set (k2 := Z.max 0 (fexp prec emax (Z.log2 r + 1 + e1) - e1)) in *.
  assert ((k2 = 0 /\ r < 2 ^ 53) \/ (k2 = 1 /\ r = 2 ^ 53))%Z as Hk2.
  { assert (2 ^ 52 <= r < 2 ^ 54)%Z as Hr' by lia.
    destruct (log2_52_or_53 r Hr') as [Hl | Hl].
    - left. split; [subst k2; rewrite Hl; unfold fexp, emin, prec, emax; lia|].
      apply Z.log2_lt_pow2; lia.
    - right. split; [subst k2; rewrite Hl; unfold fexp, emin, prec, emax; lia|].
      assert (2 ^ 53 <= r)%Z by (apply Z.log2_le_pow2; lia). lia. }
  assert (shr_m mrs2 = r / 2 ^ k2 /\ 2 ^ 52 <= r / 2 ^ k2 <= 2 ^ 53 /\
          r - 1 <= r / 2 ^ k2 * 2 ^ k2 <= r)%Z as (Hm2' & Hb2 & Hb2').
  { split; [exact Hm2|].
    destruct Hk2 as [[-> Hlt] | [-> ->]].
    - rewrite Z.pow_0_r, Z.div_1_r. lia.
    - rewrite Z.pow_1_r. change (2 ^ 53 / 2)%Z with (2 ^ 52)%Z. lia. }
  rewrite Hm2'. destruct (r / 2 ^ k2)%Z as [|m|m] eqn:Hm; try lia.
  exists m, (k1 + k2)%Z.
  replace (e2 <=? emax - prec)%Z with true
    by (symmetry; apply Z.leb_le; unfold emax, prec; lia).
  split; [f_equal; lia|]. split; [lia|]. split; [|lia].
  rewrite Z.pow_add_r by lia.
  assert (0 < 2 ^ k1 <= 2)%Z as Hp1
      by (destruct Hk1 as [[-> _] | [-> _]]; simpl; lia).
  assert (0 < 2 ^ k2 <= 2)%Z as Hp2
      by (destruct Hk2 as [[-> _] | [-> _]]; simpl; lia).
  nia.
Qed.

Lemma SF64div_small (S n : Z) :
  (0 < n)%Z -> (n <= S <= 5 * n)%Z -> (S < 2 ^ 53)%Z ->
  exists (m : positive) (e t : Z),
    SF64div (S754_finite false (mantissa S) (Z.log2 S - 52))
            (S754_finite false (mantissa n) (Z.log2 n - 52))
    = S754_finite false m e /\
    (0 <= t <= 2)%Z /\ (e < 0)%Z /\ (50 <= - e + t)%Z /\
    (Z.pos m <= 2 ^ 53)%Z /\
    ((Z.pos m * 2 ^ t - 9) * n <= S * 2 ^ (- e + t))%Z /\
    (S * 2 ^ (- e + t) <= (Z.pos m * 2 ^ t + 9) * n)%Z.
Proof.
  intros Hn HS HS53.
  destruct (mantissa_bounds S ltac:(lia)) as (HmS & HlS & HbS).
  destruct (mantissa_bounds n ltac:(lia)) as (Hmn & Hln & Hbn).
  assert (Z.log2 (Z.pos (mantissa S)) = 52%Z) as HdS by (apply Z.log2_unique; lia).
  assert (Z.log2 (Z.pos (mantissa n)) = 52%Z) as Hdn by (apply Z.log2_unique; lia).
  assert (Z.log2 n <= Z.log2 S <= Z.log2 n + 3)%Z as Hdelta.
  { split; [apply Z.log2_le_mono; lia|].
    replace (Z.log2 n + 3)%Z with (Z.log2 (n * 2 ^ 3)) by (rewrite Z.log2_mul_pow2; lia).
    apply Z.log2_le_mono. lia. }
  set (delta := (Z.log2 S - Z.log2 n)%Z).
  unfold SF64div, SFdiv, SFdiv_core_binary. cbv zeta.
  simpl Zdigits2. rewrite !digits2_pos_log2, HdS, Hdn.
  replace (52 + 1 + (Z.log2 S - 52) - (52 + 1 + (Z.log2 n - 52)))%Z with delta
    by (subst delta; lia).
  replace (Z.log2 S - 52 - (Z.log2 n - 52))%Z with delta by (subst delta; lia).
  replace (Z.min (fexp prec emax delta) delta) with (delta - 53)%Z
    by (subst delta; unfold fexp, emin, prec, emax; lia).
  replace (delta - (delta - 53))%Z with 53%Z by lia.
  cbv iota. rewrite Z.shiftl_mul_pow2 by lia.
  set (num := (Z.pos (mantissa S) * 2 ^ 53)%Z).
  pose proof (Z.div_mod num (Z.pos (mantissa n)) ltac:(lia)) as Hdiv.
  pose proof (Z.mod_pos_bound num (Z.pos (mantissa n)) ltac:(lia)) as Hmod.
  assert (fst (Z.div_eucl num (Z.pos (mantissa n))) = num / Z.pos (mantissa n))%Z
    as Hq by reflexivity.
  destruct (Z.div_eucl num (Z.pos (mantissa n))) as [q r]. simpl fst in Hq.
  set (rem := (num mod Z.pos (mantissa n))%Z) in *.
  rewrite <- Hq in Hdiv. clearbody rem. clear Hq.
  (* the quotient of the mantissas, in terms of S and n *)
  assert (0 < 2 ^ (52 - Z.log2 n))%Z as Hpn by (apply Z.pow_pos_nonneg; lia).
  assert (0 < 2 ^ (53 - delta))%Z as Hpd by (apply Z.pow_pos_nonneg; subst delta; lia).
  assert (num = S * 2 ^ (53 - delta) * 2 ^ (52 - Z.log2 n))%Z as Hnum.
  { subst num. rewrite HmS, <- !Z.mul_assoc, <- !Z.pow_add_r by (subst delta; lia).
    f_equal. f_equal. subst delta. lia. }
  assert (q * n <= S * 2 ^ (53 - delta) < (q + 1) * n)%Z as Hquot.
  { rewrite Hmn in Hdiv, Hmod. rewrite Hnum in Hdiv. clear -Hdiv Hmod Hpn Hn. nia. }
  assert (2 ^ 52 <= q < 2 ^ 54)%Z as Hqb.
  { assert (2 ^ (53 - delta) * n <= S * 2 ^ (53 - delta))%Z by nia.
    assert (2 ^ 52 * 2 ^ 53 <= num < 2 ^ 53 * 2 ^ 53)%Z by (subst num; lia).
    clear -Hdiv Hmod H0 Hbn. nia. }
  destruct (binary_round_aux_crude q (delta - 53) (new_location (Z.pos (mantissa n)) r)
              Hqb ltac:(subst delta; lia)) as (m & t & Hround & Ht & Hmt & Hm53).
  change (xorb false false) with false.
  exists m, (delta - 53 + t)%Z, t. rewrite Hround.
  split; [reflexivity|]. split; [exact Ht|]. split; [subst delta; lia|].
  split; [lia|]. split; [exact Hm53|].
  replace (- (delta - 53 + t) + t)%Z with (53 - delta)%Z by lia.
  clear -Hquot Hmt Hn. split; nia.
Qed.

(** ** The average of integer ratings *)

Lemma nearest_scaled_neg (m : positive) (e : Z) :
  (e < 0)%Z ->
  let k := nearest_scaled m e 2 in
  (0 <= k)%Z /\
  (2 * 2 ^ (- e) * k <= 200 * Z.pos m + 2 ^ (- e))%Z /\
  (200 * Z.pos m + 2 ^ (- e) < 2 * 2 ^ (- e) * (k + 1))%Z.
Proof.
  intros He k. subst k. unfold nearest_scaled.
  destruct (Z.leb_spec 0 e) as [|_]; [lia|].
  change (10 ^ Z.of_nat 2)%Z with 100%Z.
  assert (0 < 2 ^ (- e))%Z as Hpow by (apply Z.pow_pos_nonneg; lia).
  replace (2 ^ (- e + 1))%Z with (2 * 2 ^ (- e))%Z
    by (rewrite Z.pow_add_r by lia; ring).
  set (d := (2 ^ (- e))%Z) in *.
  pose proof (Z.div_mod (2 * Z.pos m * 100 + d) (2 * d) ltac:(lia)) as Hdiv.
  pose proof (Z.mod_pos_bound (2 * Z.pos m * 100 + d) (2 * d) ltac:(lia)) as Hmod.
  split; [apply Z.div_pos; lia|]. lia.
Qed.

Lemma hundredth_of_quotient (m : positive) (e t S n k : Z) :
  (0 < n < 2 ^ 32)%Z -> (0 <= t <= 2)%Z -> (e < 0)%Z -> (50 <= - e + t)%Z ->
  ((Z.pos m * 2 ^ t - 9) * n <= S * 2 ^ (- e + t))%Z ->
  (S * 2 ^ (- e + t) <= (Z.pos m * 2 ^ t + 9) * n)%Z ->
  (2 * 2 ^ (- e) * k <= 200 * Z.pos m + 2 ^ (- e))%Z ->
  (200 * Z.pos m + 2 ^ (- e) < 2 * 2 ^ (- e) * (k + 1))%Z ->
  (- n <= 2 * k * n - 200 * S <= n)%Z.
Proof.
  intros Hn Ht He Het Hlo Hhi Hklo Hkhi.
  rewrite Z.pow_add_r in Hlo, Hhi by lia.
  assert (2 ^ 50 <= 2 ^ (- e) * 2 ^ t)%Z as Hbig.
  { rewrite <- Z.pow_add_r by lia. apply Z.pow_le_mono_r; lia. }
  assert (0 < 2 ^ t)%Z as HT by (apply Z.pow_pos_nonneg; lia).
  assert (0 < 2 ^ (- e))%Z as HP by (apply Z.pow_pos_nonneg; lia).
  set (T := (2 ^ t)%Z) in *. set (P := (2 ^ (- e))%Z) in *.
  set (M := Z.pos m) in *.
  set (X := (2 * k * n - 200 * S)%Z).
  assert (P * T * X <= P * T * n + 1800 * n)%Z as HX1.
  { assert (2 * P * k * (T * n) <= (200 * M + P) * (T * n))%Z as H1
        by (apply Z.mul_le_mono_nonneg_r; nia).
    assert (200 * ((M * T - 9) * n) <= 200 * (S * (P * T)))%Z as H2 by lia.
    subst X. nia. }
  assert (- (P * T * n + 1800 * n) <= P * T * X)%Z as HX2.
  { assert ((200 * M + P) * (T * n) <= 2 * P * (k + 1) * (T * n))%Z as H1
        by (apply Z.mul_le_mono_nonneg_r; nia).
    assert (200 * (S * (P * T)) <= 200 * ((M * T + 9) * n))%Z as H2 by lia.
    subst X. nia. }
  assert (1800 * n < P * T)%Z as Hsmall by lia.
  clearbody X. clear -HX1 HX2 Hsmall Hn HP HT. nia.
Qed.

Lemma nearest_hundredth_quotient (S n k : Z) :
  (0 < n)%Z -> (- n <= 2 * k * n - 200 * S <= n)%Z ->
  nearest_hundredth (inject_Z S / inject_Z n) k.
Proof.
  intros Hn Hk. unfold nearest_hundredth. apply Qabs_Qle_condition.
  destruct n as [|p|p]; try lia.
  unfold Qle, Qdiv, Qinv, Qminus, Qplus, Qmult, Qopp, inject_Z; simpl.
  rewrite ?Pos.mul_1_r, ?Z.mul_1_r. lia.
Qed.

Lemma integer_rating_of_Z (r : number) :
  integer_rating r ->
  exists z : Z, (1 <= z <= 5)%Z /\ r = number_of_Z z /\ (Qvalue r == inject_Z z)%Q.
Proof.
  unfold integer_rating. simpl.
  intros [<- | [<- | [<- | [<- | [<- | []]]]]];
    [exists 1%Z | exists 2%Z | exists 3%Z | exists 4%Z | exists 5%Z];
    (split; [lia|]); split; vm_compute; reflexivity.
Qed.

Lemma integer_ratings_of_Z (ratings : list number) :
  Forall integer_rating ratings ->
  exists zs : list Z,
    Forall (fun z => 1 <= z <= 5)%Z zs /\
    ratings = map number_of_Z zs /\
    (fold_right (fun r acc => Qvalue r + acc) 0 ratings == inject_Z (Zsum zs))%Q.
Proof.
  induction 1 as [|r ratings Hr _ (zs & Hzs & -> & Hsum)].
  - exists []. repeat split. constructor.
  - destruct (integer_rating_of_Z r Hr) as (z & Hz & -> & Hv).
    exists (z :: zs). split; [constructor; assumption|]. split; [reflexivity|].
    simpl. rewrite Hv, Hsum, inject_Z_plus. reflexivity.
Qed.

Lemma Zsum_bounds (zs : list Z) :
  Forall (fun z => 1 <= z <= 5)%Z zs ->
  (Z.of_nat (length zs) <= Zsum zs <= 5 * Z.of_nat (length zs))%Z.
Proof. induction 1; simpl length; simpl Zsum; lia. Qed.

(** For fewer than [2^32] ratings, each one of 1, 2, 3, 4, 5, the average
    returned is the binary64 value nearest to a hundredth nearest to the
    exact mean. *)
Lemma average_of_integer_ratings (ratings : list number) :
  ratings <> [] -> Forall integer_rating ratings ->
  (Z.of_nat (length ratings) < 2 ^ 32)%Z ->
  exists k : Z,
    (0 <= k)%Z /\
    nearest_hundredth (exact_mean ratings) k /\
    parseFloat (toFixed (float_mean ratings) 2)
    = decimal_to_number false (Z.to_N k) 2.
Proof.
  intros Hne Hint Hlen.
  destruct (integer_ratings_of_Z ratings Hint) as (zs & Hzs & -> & Hsum).
  rewrite length_map in Hlen.
  pose proof (Zsum_bounds zs Hzs) as HS.
  set (n := Z.of_nat (length zs)) in *. set (S := Zsum zs) in *.
  assert (0 < n)%Z as Hn
      by (subst n; destruct zs; [exfalso; apply Hne; reflexivity | simpl length; lia]).
  assert (S < 2 ^ 53)%Z as HS53 by lia.
  destruct (SF64div_small S n Hn HS HS53)
    as (m & e & t & Hdiv & Ht & He & Het & Hm53 & Hlo & Hhi).
  assert (Prim2SF (float_mean (map number_of_Z zs)) = S754_finite false m e) as Hq.
  { unfold float_mean, sum_of, number_of_nat. rewrite length_map. fold n.
    change 0%float with (number_of_Z 0).
    rewrite (sum_of_integers zs 0) by (fold S; lia || assumption).
    fold S. rewrite Z.add_0_l.
    rewrite div_spec, !Prim2SF_number_of_Z by lia. exact Hdiv. }
  destruct (nearest_scaled_neg m e He) as (Hk0 & Hklo & Hkhi).
  set (k := nearest_scaled m e 2) in *.
  exists k. split; [exact Hk0|]. split.
  - unfold nearest_hundredth, exact_mean. rewrite length_map. fold n. rewrite Hsum.
    apply nearest_hundredth_quotient; [exact Hn|].
    apply (hundredth_of_quotient m e t S n k); assumption || lia.
  - unfold toFixed. rewrite Hq.
    assert (at_least_1e21 m e = false) as ->; [|reflexivity].
    unfold at_least_1e21. destruct (Z.leb_spec 0 e) as [|_]; [lia|].
    apply Z.leb_gt.
    assert (2 ^ 48 <= 2 ^ (- e))%Z by (apply Z.pow_le_mono_r; lia). lia.
Qed.

Lemma hundredths_in_range :
  forallb (fun k => (1 <=? decimal_to_number false (N.of_nat k) 2)%float
                    && (decimal_to_number false (N.of_nat k) 2 <=? 5)%float)
    (seq 100 401) = true.
Proof. vm_compute. reflexivity. Qed.

Lemma hundredth_in_range (k : Z) :
  (100 <= k <= 500)%Z ->
  (1 <=? decimal_to_number false (Z.to_N k) 2)%float = true /\
  (decimal_to_number false (Z.to_N k) 2 <=? 5)%float = true.
Proof.
  intros Hk. pose proof hundredths_in_range as H.
  rewrite forallb_forall in H. specialize (H (Z.to_nat k)).
  replace (N.of_nat (Z.to_nat k)) with (Z.to_N k) in H by lia.
  apply andb_true_iff, H, in_seq. lia.
Qed.

Lemma exact_mean_of_integers (ratings : list number) :
  ratings <> [] -> Forall integer_rating ratings ->
  exists S n : Z,
    (0 < n)%Z /\ (n <= S <= 5 * n)%Z /\
    (exact_mean ratings == inject_Z S / inject_Z n)%Q.
Proof.
  intros Hne Hint.
  destruct (integer_ratings_of_Z ratings Hint) as (zs & Hzs & -> & Hsum).
  exists (Zsum zs), (Z.of_nat (length zs)).
  split; [destruct zs; [exfalso; apply Hne; reflexivity | simpl length; lia]|].
  split; [apply Zsum_bounds, Hzs|].
  unfold exact_mean. rewrite length_map, Hsum. reflexivity.
Qed.

Lemma nearest_hundredth_bounds (S n k : Z) :
  (0 < n)%Z -> (n <= S <= 5 * n)%Z ->
  nearest_hundredth (inject_Z S / inject_Z n) k -> (100 <= k <= 500)%Z.
Proof.
  intros Hn HS Hk. unfold nearest_hundredth in Hk.
  apply Qabs_Qle_condition in Hk. destruct Hk as [Hlo Hhi].
  destruct n as [|p|p]; try lia.
  revert Hlo Hhi.
  unfold Qle, Qdiv, Qinv, Qminus, Qplus, Qmult, Qopp, inject_Z; simpl.
  rewrite ?Pos.mul_1_r, ?Z.mul_1_r. intros Hlo Hhi. nia.
Qed.

Lemma exact_mean_repeat (r : number) (n : nat) :
  (0 < n)%nat -> (exact_mean (repeat r n) == Qvalue r)%Q.
Proof.
  intros Hn. unfold exact_mean. rewrite repeat_length.
  assert (fold_right (fun r acc => Qvalue r + acc) 0 (repeat r n)
          == Qvalue r * inject_Z (Z.of_nat n))%Q as ->.
  { clear Hn. induction n as [|n IH].
    - simpl. ring.
    - simpl repeat. simpl fold_right. rewrite IH, Nat2Z.inj_succ.
      unfold Z.succ. rewrite inject_Z_plus. ring. }
  apply Qdiv_mult_l. intros H.
  apply (inject_Z_injective (Z.of_nat n) 0) in H. lia.
Qed.

Lemma nearest_hundredth_of_integer (z k : Z) :
  nearest_hundredth (inject_Z z) k -> k = (100 * z)%Z.
Proof.
  unfold nearest_hundredth. intros H. apply Qabs_Qle_condition in H.
  destruct H as [Hlo Hhi]. revert Hlo Hhi.
  unfold Qle, Qminus, Qplus, Qmult, Qopp, inject_Z; simpl.
  rewrite ?Z.mul_1_r. lia.
Qed.

Lemma whole_hundredths (z : Z) :
  (1 <= z <= 5)%Z ->
  decimal_to_number false (Z.to_N (100 * z)) 2 = number_of_Z z.
Proof.
  intros Hz.
  assert (z = 1 \/ z = 2 \/ z = 3 \/ z = 4 \/ z = 5)%Z
    as [-> | [-> | [-> | [-> | ->]]]] by lia;
    vm_compute; reflexivity.
Qed.

(** ** The range check on integers *)

Lemma binary_round_small (s : bool) (p : positive) :
  (Z.pos p < 2 ^ 53)%Z ->
  binary_round prec emax s p 0
  = S754_finite s (mantissa (Z.pos p)) (Z.log2 (Z.pos p) - 52).
Proof.
  intros Hp. destruct (mantissa_bounds (Z.pos p) ltac:(lia)) as (Hm & Hlog & Hb).
  unfold binary_round.
  rewrite digits2_pos_log2, Z.add_0_r, fexp_small by lia.
  unfold shl_align.
  replace (Z.log2 (Z.pos p) + 1 - 53 - 0)%Z with (- (52 - Z.log2 (Z.pos p)))%Z by lia.
  destruct (52 - Z.log2 (Z.pos p))%Z as [|d|d] eqn:Hd; try lia;
    [change (- 0)%Z with 0%Z | change (- Z.pos d)%Z with (Z.neg d)];
    cbv iota beta.
  - assert (mantissa (Z.pos p) = p) as Hmp.
    { apply Pos2Z.inj. rewrite Hm, Z.pow_0_r. lia. }
    rewrite Hmp in Hb |- *.
    rewrite binary_round_aux_fixed by lia. f_equal. lia.
  - assert (mantissa (Z.pos p) = Pos.iter xO p d) as Hmp.
    { apply Pos2Z.inj. rewrite Hm, pos_iter_xO. reflexivity. }
    rewrite Hmp in Hb |- *.
    rewrite binary_round_aux_fixed by lia. f_equal. lia.
Qed.

Lemma Prim2SF_number_of_negative (p : positive) :
  (Z.pos p < 2 ^ 53)%Z ->
  Prim2SF (number_of_Z (Z.neg p))
  = S754_finite true (mantissa (Z.pos p)) (Z.log2 (Z.pos p) - 52).
Proof.
  intros Hp. destruct (mantissa_bounds (Z.pos p) ltac:(lia)) as (Hm & Hlog & Hb).
  unfold number_of_Z, binary_normalize. rewrite binary_round_small by exact Hp.
  apply Prim2SF_SF2Prim. unfold valid_binary, bounded, canonical_mantissa.
  rewrite digits2_pos_log2.
  replace (Z.log2 (Z.pos (mantissa (Z.pos p)))) with 52%Z
    by (symmetry; apply Z.log2_unique; lia).
  apply andb_true_intro. split.
  - apply Z.eqb_eq. unfold fexp, emin, prec, emax. lia.
  - apply Z.leb_le. unfold prec, emax. lia.
Qed.

Lemma negative_below_one (p : positive) :
  (Z.pos p < 2 ^ 53)%Z -> (number_of_Z (Z.neg p) <? 1)%float = true.
Proof.
  intros Hp. rewrite ltb_spec, (Prim2SF_number_of_negative p Hp). reflexivity.
Qed.

Lemma large_above_five (z : Z) :
  (8 <= z < 2 ^ 53)%Z -> (5 <? number_of_Z z)%float = true.
Proof.
  intros Hz. rewrite ltb_spec, (Prim2SF_number_of_Z z) by lia.
  change (Prim2SF 5%float) with (S754_finite false 5629499534213120 (-50)).
  unfold SFltb, SFcompare.
  assert (3 <= Z.log2 z)%Z as Hlog by (apply Z.log2_le_pow2; lia).
  replace (-50 ?= Z.log2 z - 52)%Z with Lt; [reflexivity|].
  symmetry. apply Z.compare_lt_iff. lia.
Qed.

Lemma validateRating_integer (st : Storage) (z : Z) :
  (- 2 ^ 53 < z < 2 ^ 53)%Z ->
  validateRating (number_of_Z z) st
  = if ((1 <=? z) && (z <=? 5))%Z then (Normal tt, st)
    else (Throw (Error rating_message), st).
Proof.
  intros Hz. destruct (Z_lt_le_dec z 0) as [Hneg | Hnn].
  - destruct z as [|p|p]; try lia.
    rewrite validateRating_throws by (left; apply negative_below_one; lia).
    reflexivity.
  - destruct (Z_lt_le_dec z 8) as [Hsmall | Hlarge].
    + assert (z = 0 \/ z = 1 \/ z = 2 \/ z = 3 \/ z = 4 \/ z = 5 \/ z = 6 \/ z = 7)%Z
        as [-> | [-> | [-> | [-> | [-> | [-> | [-> | ->]]]]]]] by lia;
        reflexivity.
    + rewrite validateRating_throws by (right; apply large_above_five; lia).
      replace (z <=? 5)%Z with false by (symmetry; apply Z.leb_gt; lia).
      rewrite andb_false_r. reflexivity.
Qed.

(** ** Lines 71 to 77 on a record *)

Lemma number_of_nat_not_zero (n : nat) :
  (0 < n)%nat -> (Z.of_nat n < 2 ^ 53)%Z ->
  (number_of_nat n =? 0)%float = false.
Proof.
  intros Hn Hlt. unfold number_of_nat.
  rewrite FloatAxioms.eqb_spec, Prim2SF_number_of_Z by lia. reflexivity.
Qed.

Lemma record_Ratings (product : Product) (st : Storage) :
  prop (Product_value product) "Ratings" st
  = (Normal (Arr (Product.Ratings product)), st).
Proof. reflexivity. Qed.

Lemma array_length (items : list number) (st : Storage) :
  prop (Arr items) "length" st
  = (Normal (Num (number_of_nat (length items))), st).
Proof. reflexivity. Qed.

Lemma averageRating_of_record (product : Product) (st : Storage) :
  (Z.of_nat (length (Product.Ratings product)) < 2 ^ 53)%Z ->
  averageRating (Product_value product) st
  = (Normal (Ok (Num (match Product.Ratings product with
                      | [] => 0%float
                      | _ :: _ =>
                          parseFloat
                            (toFixed (float_mean (Product.Ratings product)) 2)
                      end))), st).
Proof.
  intros Hlen. unfold averageRating, mbind, canister_bind.
  rewrite record_Ratings, array_length. unfold strict_equals_number.
  destruct (Product.Ratings product) as [|r rs] eqn:E.
  - reflexivity.
  - rewrite number_of_nat_not_zero by (simpl length in *; lia).
    rewrite record_Ratings, E. unfold reduce_sum, mret, canister_ret.
    rewrite record_Ratings, E, array_length. reflexivity.
Qed.

(** ** The small store *)

Lemma stored_present (st : Storage) (id : string) (product : Product) :
  st !! id = Some product -> stored st id = Opt.Some (Product_value product).
Proof. intros Hget. unfold stored. rewrite Hget. reflexivity. Qed.

Lemma stored_absent (st : Storage) (id : string) :
  st !! id = None -> stored st id = Opt.None.
Proof. intros Hget. unfold stored. rewrite Hget. reflexivity. Qed.

Lemma sample_store_p1 : sample_store !! "p1" = Some sample_product.
Proof. vm_compute. reflexivity. Qed.

Lemma sample_store_p2 : sample_store !! "p2" = None.
Proof. vm_compute. reflexivity. Qed.

Lemma enumerates_values_of : enumerates values_of.
Proof. intros st. reflexivity. Qed.

Lemma out_of_range (rating : number) :
  rating <> nan ->
  ((1 <=? rating) && (rating <=? 5))%float = false ->
  ((rating <? 1)%float || (5 <? rating)%float)%bool = true.
Proof.
  intros Hnan Hout.
  destruct (rating <? 1)%float eqn:Hlo; [reflexivity|].
  destruct (5 <? rating)%float eqn:Hhi; [reflexivity|].
  destruct (in_range_or_nan rating Hlo Hhi) as [H | [H1 H5]]; [contradiction|].
  rewrite H1, H5 in Hout. discriminate.
Qed.

Lemma in_range_passes (rating : number) :
  rating = nan \/ ((1 <=? rating)%float = true /\ (rating <=? 5)%float = true) ->
  ((rating <? 1)%float || (5 <? rating)%float)%bool = false.
Proof.
  intros [-> | [H1 H5]].
  - rewrite ltb_nan_l, ltb_nan_r. reflexivity.
  - rewrite (leb_true_ltb_false _ _ H1), (leb_true_ltb_false _ _ H5).
    reflexivity.
Qed.

(** * The properties of the calls *)

(** ** Rating a product: a rating out of range *)

(** C1. For a stored id and a rating outside [1,5] (any rating for which
    [1 <= rating <= 5] does not hold, NaN included), [rateProduct] throws
    instead of returning a result, and the store after the call is the store
    before it: the product is still stored under the id, with the ratings
    and the other fields it had.  For a rating below 1 or above 5 what is
    thrown is the error of [validateRating], which runs before the
    write-back; for NaN it is the TypeError of the spread that follows. *)
Theorem rateProduct_out_of_range_throws (st : Storage) (id : string)
    (product : Product) (rating : number) :
  st !! id = Some product ->
  ((1 <=? rating) && (rating <=? 5))%float = false ->
  exists exception,
    rateProduct id rating st = (Throw exception, st) /\
    snd (rateProduct id rating st) !! id = Some product /\
    (rating <> nan -> exception = Error rating_message) /\
    (rating = nan -> exception = TypeError).
Proof.
  intros Hget Hout. eexists. split; [apply rateProduct_throws|].
  rewrite rateProduct_throws. split; [exact Hget|]. split.
  - intros Hnan. rewrite (out_of_range _ Hnan Hout). reflexivity.
  - intros ->. reflexivity.
Qed.

Lemma rateProduct_out_of_range_throws_witness :
  exists exception,
    rateProduct "p1" 6%float sample_store = (Throw exception, sample_store) /\
    snd (rateProduct "p1" 6%float sample_store) !! "p1" = Some sample_product /\
    (6%float <> nan -> exception = Error rating_message) /\
    (6%float = nan -> exception = TypeError).
Proof.
  apply (rateProduct_out_of_range_throws sample_store "p1" sample_product 6%float).
  - exact sample_store_p1.
  - vm_compute. reflexivity.
Defined.

(** ** An id that is not in the store *)

(** C2. For an id that is not in the store no call returns a not-found
    error.  [productStorage.get] and [remove] hand back [{None: null}],
    which is not [null]: [getProduct] and [deleteProduct] return it as a
    success; [rateProduct] throws (the error of [validateRating], or a
    TypeError at [...product.Ratings]); [calculateAverageRating] throws a
    TypeError at [product.Ratings.length]; [updateProduct] passes the key
    [product.id], which is [undefined], to [insert] and the host refuses
    it.  The store is left as it was by all five. *)
Theorem absent_id_is_not_reported (st : Storage) (id : string)
    (rating : number) (now : nat64) (payload : ProductPayload) :
  st !! id = None ->
  getProduct id st = (Normal (Ok Opt.None), st) /\
  (exists exception, rateProduct id rating st = (Throw exception, st)) /\
  calculateAverageRating id st = (Throw TypeError, st) /\
  updateProduct now id payload st = (Throw HostError, st) /\
  deleteProduct id st = (Normal (Ok Opt.None), st).
Proof.
  intros Hget.
  split; [rewrite getProduct_returns, (stored_absent _ _ Hget); reflexivity|].
  split; [eexists; apply rateProduct_throws|].
  split; [apply calculateAverageRating_throws|].
  split; [apply updateProduct_throws|].
  rewrite deleteProduct_returns, (stored_absent _ _ Hget), (delete_id _ _ Hget).
  reflexivity.
Qed.

Lemma absent_id_is_not_reported_witness :
  getProduct "p2" sample_store = (Normal (Ok Opt.None), sample_store) /\
  (exists exception,
     rateProduct "p2" 3%float sample_store = (Throw exception, sample_store)) /\
  calculateAverageRating "p2" sample_store = (Throw TypeError, sample_store) /\
  updateProduct 7%N "p2" sample_payload sample_store
  = (Throw HostError, sample_store) /\
  deleteProduct "p2" sample_store = (Normal (Ok Opt.None), sample_store).
Proof.
  apply (absent_id_is_not_reported sample_store "p2" 3%float 7%N sample_payload).
  exact sample_store_p2.
Defined.

(** ** Adding a product *)

(** C3. For a payload whose name, description and URL are all non-empty
    [addProduct] does not succeed.  [uuidv4()] asks
    [crypto.getRandomValues] for its bytes, which the canister has defined
    to call itself: whatever depth of call stack the host allows, the stack
    is used up and the call throws before [insert] is reached.  Nothing is
    stored, and [getProduct] answers after the call as it did before. *)
Theorem addProduct_uses_up_the_stack (st : Storage) (stack : nat)
    (now : nat64) (payload : ProductPayload) :
  ProductPayload.name payload <> "" ->
  ProductPayload.description payload <> "" ->
  ProductPayload.URL payload <> "" ->
  addProduct stack now payload st = (Throw RangeError, st) /\
  forall id,
    fst (getProduct id (snd (addProduct stack now payload st)))
    = fst (getProduct id st).
Proof.
  intros Hn Hd Hu. rewrite (addProduct_valid st stack now payload Hn Hd Hu).
  split; reflexivity.
Qed.

Lemma addProduct_uses_up_the_stack_witness :
  addProduct 1000 5%N sample_payload ∅ = (Throw RangeError, ∅) /\
  forall id,
    fst (getProduct id (snd (addProduct 1000 5%N sample_payload ∅)))
    = fst (getProduct id ∅).
Proof.
  apply (addProduct_uses_up_the_stack ∅ 1000 5%N sample_payload);
    discriminate.
Defined.

(** ** The average rating *)

(** C4. For a stored product [calculateAverageRating] returns no average.
    [productStorage.get] hands back [{Some: product}]; its property
    [Ratings] is [undefined], and reading [length] of it throws a
    TypeError, whatever the ratings of the product are: with no ratings the
    call does not return 0, and with ratings [4,5] it does not return 4.5.
    The store is left as it was. *)
Theorem calculateAverageRating_throws_for_stored (st : Storage) (id : string)
    (product : Product) :
  st !! id = Some product ->
  productStorage.get id st = (Normal (Opt.Some (Product_value product)), st) /\
  prop (Opt.Some (Product_value product)) "Ratings" st = (Normal Undefined, st) /\
  calculateAverageRating id st = (Throw TypeError, st).
Proof.
  intros Hget. split; [|split].
  - unfold productStorage.get. rewrite (stored_present _ _ _ Hget). reflexivity.
  - reflexivity.
  - apply calculateAverageRating_throws.
Qed.

Lemma calculateAverageRating_throws_for_stored_witness :
  productStorage.get "p1" sample_store
  = (Normal (Opt.Some (Product_value sample_product)), sample_store) /\
  prop (Opt.Some (Product_value sample_product)) "Ratings" sample_store
  = (Normal Undefined, sample_store) /\
  calculateAverageRating "p1" sample_store = (Throw TypeError, sample_store).
Proof.
  apply (calculateAverageRating_throws_for_stored sample_store "p1" sample_product).
  exact sample_store_p1.
Defined.

(** ** The ratings of reachable stores *)



(** ** Rating a product: a rating in range *)

(** C6. For a stored id and a rating in [1,5] [rateProduct] does not
    succeed.  The rating passes [validateRating]; then
    [[...product.Ratings, rating]] spreads the property [Ratings] of
    [{Some: product}], which is [undefined], and throws a TypeError.
    Nothing is returned and nothing is written: the product stays stored
    under the id with the ratings it had. *)
Theorem rateProduct_in_range_throws (st : Storage) (id : string)
    (product : Product) (rating : number) :
  st !! id = Some product ->
  (1 <=? rating)%float = true -> (rating <=? 5)%float = true ->
  validateRating rating st = (Normal tt, st) /\
  rateProduct id rating st = (Throw TypeError, st) /\
  snd (rateProduct id rating st) !! id = Some product.
Proof.
  intros Hget H1 H5.
  pose proof (in_range_passes rating (or_intror (conj H1 H5))) as Hpass.
  apply orb_false_elim in Hpass as [Hlo Hhi].
  split; [apply validateRating_passes; assumption|].
  rewrite rateProduct_throws, Hlo, Hhi. split; [reflexivity | exact Hget].
Qed.

Lemma rateProduct_in_range_throws_witness :
  validateRating 3%float sample_store = (Normal tt, sample_store) /\
  rateProduct "p1" 3%float sample_store = (Throw TypeError, sample_store) /\
  snd (rateProduct "p1" 3%float sample_store) !! "p1" = Some sample_product.
Proof.
  apply (rateProduct_in_range_throws sample_store "p1" sample_product 3%float).
  - exact sample_store_p1.
  - vm_compute. reflexivity.
  - vm_compute. reflexivity.
Defined.

(** ** Updating a product *)

(** C7. For a stored id and any payload [updateProduct] updates nothing.
    [product] is [{Some: record}], its property [id] is [undefined], and
    [productStorage.insert(product.id, updatedProduct)] is refused by the
    host, which takes a string for a key.  The call throws; nothing is
    returned and the store, the record under the id included, is left as
    it was. *)
Theorem updateProduct_is_refused (st : Storage) (now : nat64) (id : string)
    (product : Product) (payload : ProductPayload) :
  st !! id = Some product ->
  prop (Opt.Some (Product_value product)) "id" st = (Normal Undefined, st) /\
  updateProduct now id payload st = (Throw HostError, st) /\
  snd (updateProduct now id payload st) !! id = Some product.
Proof.
  intros Hget. split; [reflexivity|].
  rewrite updateProduct_throws. split; [reflexivity | exact Hget].
Qed.

Lemma updateProduct_is_refused_witness :
  prop (Opt.Some (Product_value sample_product)) "id" sample_store
  = (Normal Undefined, sample_store) /\
  updateProduct 7%N "p1" sample_payload sample_store
  = (Throw HostError, sample_store) /\
  snd (updateProduct 7%N "p1" sample_payload sample_store) !! "p1"
  = Some sample_product.
Proof.
  apply (updateProduct_is_refused sample_store 7%N "p1" sample_product
           sample_payload).
  exact sample_store_p1.
Defined.

(** ** Adding a product, continued *)

(** C8. For a payload whose name, description or URL is empty,
    [addProduct] returns a validation error result and the store after the
    call is the store before it. *)
Theorem addProduct_rejects_empty_field (st : Storage) (stack : nat)
    (now : nat64) (payload : ProductPayload) :
  ProductPayload.name payload = "" \/
  ProductPayload.description payload = "" \/
  ProductPayload.URL payload = "" ->
  addProduct stack now payload st = (Normal (Err "Missing required fields"), st).
Proof. apply addProduct_invalid. Qed.

Lemma addProduct_rejects_empty_field_witness :
  addProduct 1000 5%N other_payload sample_store
  = (Normal (Err "Missing required fields"), sample_store).
Proof.
  apply (addProduct_rejects_empty_field sample_store 1000 5%N other_payload).
  right. left. reflexivity.
Defined.

(** ** Deleting a product *)

(** C9. For a stored id [deleteProduct] removes the key, but what it
    returns is [{Some: record}], the [Opt] that [remove] hands back, not the
    record that was stored; and after it neither [getProduct] nor a second
    [deleteProduct] on the id returns a not-found error: both return
    [{None: null}] as a success. *)
Theorem deleteProduct_returns_the_Opt (st : Storage) (id : string)
    (product : Product) :
  st !! id = Some product ->
  deleteProduct id st
  = (Normal (Ok (Opt.Some (Product_value product))), delete id st) /\
  Opt.Some (Product_value product) <> Product_value product /\
  delete id st !! id = None /\
  getProduct id (delete id st) = (Normal (Ok Opt.None), delete id st) /\
  deleteProduct id (delete id st) = (Normal (Ok Opt.None), delete id st).
Proof.
  intros Hget.
  assert (delete id st !! id = None) as Hgone by apply lookup_delete_eq.
  split; [rewrite deleteProduct_returns, (stored_present _ _ _ Hget); reflexivity|].
  split; [discriminate|]. split; [exact Hgone|]. split.
  - rewrite getProduct_returns, (stored_absent _ _ Hgone). reflexivity.
  - rewrite deleteProduct_returns, (stored_absent _ _ Hgone),
      (delete_id _ _ Hgone). reflexivity.
Qed.

Lemma deleteProduct_returns_the_Opt_witness :
  deleteProduct "p1" sample_store
  = (Normal (Ok (Opt.Some (Product_value sample_product))),
     delete "p1" sample_store) /\
  Opt.Some (Product_value sample_product) <> Product_value sample_product /\
  delete "p1" sample_store !! "p1" = None /\
  getProduct "p1" (delete "p1" sample_store)
  = (Normal (Ok Opt.None), delete "p1" sample_store) /\
  deleteProduct "p1" (delete "p1" sample_store)
  = (Normal (Ok Opt.None), delete "p1" sample_store).
Proof.
  apply (deleteProduct_returns_the_Opt sample_store "p1" sample_product).
  exact sample_store_p1.
Defined.

(** ** Rating a product: fractions and NaN *)

(** C10. [validateRating] throws exactly when the rating compares below 1
    or above 5, so a rating [r] with [1 <= r <= 5] that is not an integer
    (2.5, say) and NaN both pass it.  [rateProduct] on a stored id does not
    succeed with them, though: after [validateRating] it throws the
    TypeError of [...product.Ratings], and [r] is not appended: the product
    stays stored with the ratings it had. *)
Theorem rateProduct_throws_on_fractions_and_nan (st : Storage) (id : string)
    (product : Product) (r : number) :
  st !! id = Some product ->
  r = nan \/ ((1 <=? r)%float = true /\ (r <=? 5)%float = true) ->
  (forall rating,
     validateRating rating st
     = if ((rating <? 1)%float || (5 <? rating)%float)%bool
       then (Throw (Error rating_message), st) else (Normal tt, st)) /\
  validateRating r st = (Normal tt, st) /\
  rateProduct id r st = (Throw TypeError, st) /\
  snd (rateProduct id r st) !! id = Some product.
Proof.
  intros Hget Hr. pose proof (in_range_passes r Hr) as Hpass.
  split; [|split; [|split]].
  - intros rating. unfold validateRating, gtb, throw, mret, canister_ret.
    destruct ((rating <? 1)%float || (5 <? rating)%float)%bool; reflexivity.
  - apply orb_false_elim in Hpass as [Hlo Hhi].
    apply validateRating_passes; assumption.
  - rewrite rateProduct_throws, Hpass. reflexivity.
  - rewrite rateProduct_throws. exact Hget.
Qed.

Lemma rateProduct_throws_on_fractions_and_nan_witness :
  (forall rating,
     validateRating rating sample_store
     = if ((rating <? 1)%float || (5 <? rating)%float)%bool
       then (Throw (Error rating_message), sample_store)
       else (Normal tt, sample_store)) /\
  validateRating 2.5%float sample_store = (Normal tt, sample_store) /\
  rateProduct "p1" 2.5%float sample_store = (Throw TypeError, sample_store) /\
  snd (rateProduct "p1" 2.5%float sample_store) !! "p1" = Some sample_product.
Proof.
  apply (rateProduct_throws_on_fractions_and_nan sample_store "p1"
           sample_product 2.5%float).
  - exact sample_store_p1.
  - right. split; vm_compute; reflexivity.
Defined.

(** * Further properties *)

(** ** What every call does, on every store *)

(** X1. [rateProduct] throws on every store, for every id and every
    rating: the error of [validateRating] when the rating compares below 1
    or above 5, and otherwise the TypeError of [...product.Ratings].  It
    never returns a result and never writes. *)
Theorem rateProduct_always_throws (st : Storage) (id : string)
    (rating : number) :
  rateProduct id rating st
  = (Throw (if ((rating <? 1)%float || (5 <? rating)%float)%bool
            then Error rating_message else TypeError), st).
Proof. apply rateProduct_throws. Qed.

(** X2. [calculateAverageRating] throws a TypeError on every store, for
    every id, stored or not, and leaves the store as it was. *)
Theorem calculateAverageRating_always_throws (st : Storage) (id : string) :
  calculateAverageRating id st = (Throw TypeError, st).
Proof. apply calculateAverageRating_throws. Qed.

(** X3. [updateProduct] is refused by the host on every store, for every
    id and payload: the key it passes to [insert] is [undefined].  The
    store is left as it was. *)
Theorem updateProduct_always_refused (st : Storage) (now : nat64)
    (id : string) (payload : ProductPayload) :
  updateProduct now id payload st = (Throw HostError, st).
Proof. apply updateProduct_throws. Qed.



(** X6. [crypto.getRandomValues], as the canister defines it, returns at
    no depth of call stack, and so neither does [uuidv4()]: both use up the
    stack and throw. *)
Theorem uuidv4_never_returns (stack : nat) (array : list Z) (st : Storage) :
  crypto.getRandomValues stack array st = (Throw RangeError, st) /\
  uuidv4 stack st = (Throw RangeError, st).
Proof. split; [apply getRandomValues_throws | apply uuidv4_throws]. Qed.

(** X7. [addProduct] never returns a product and never inserts: it
    returns the validation error when a field is empty and throws
    otherwise, and the store after the call is the store before it. *)
Theorem addProduct_never_inserts (st : Storage) (stack : nat) (now : nat64)
    (payload : ProductPayload) :
  addProduct stack now payload st
  = (if (falsy (ProductPayload.name payload)
         || falsy (ProductPayload.description payload)
         || falsy (ProductPayload.URL payload))%bool
     then Normal (Err "Missing required fields")
     else Throw RangeError, st).
Proof.
  unfold addProduct.
  destruct (falsy (ProductPayload.name payload)
            || falsy (ProductPayload.description payload)
            || falsy (ProductPayload.URL payload))%bool; [reflexivity|].
  unfold mbind, canister_bind. rewrite uuidv4_throws. reflexivity.
Qed.


(** ** The store along the calls *)

(** X9. Of the four updating calls only [deleteProduct] changes the
    store, and it removes one key: the store after a call is contained in
    the store before it, and no call stores a record or changes one. *)
Theorem store_only_shrinks (st : Storage) (c : Call) :
  perform st c ⊆ st /\
  (forall key product,
     perform st c !! key = Some product -> st !! key = Some product) /\
  ((forall id, c <> CallDelete id) -> perform st c = st).
Proof.
  split; [|split].
  - rewrite perform_cases. destruct c; try reflexivity. apply delete_subseteq.
  - intros key product. apply perform_lookup.
  - intros Hc. rewrite perform_cases. destruct c; try reflexivity.
    exfalso. apply (Hc id). reflexivity.
Qed.

Lemma store_only_shrinks_witness :
  perform sample_store (CallDelete "p1") ⊆ sample_store /\
  (forall key product,
     perform sample_store (CallDelete "p1") !! key = Some product ->
     sample_store !! key = Some product) /\
  ((forall id, CallDelete "p1" <> CallDelete id) ->
   perform sample_store (CallDelete "p1") = sample_store).
Proof. apply (store_only_shrinks sample_store (CallDelete "p1")). Defined.

(** X10. The store stays empty: every store reached from the empty one
    by [addProduct], [rateProduct], [updateProduct] and [deleteProduct]
    calls is empty, and [getProducts] lists nothing on it. *)
Theorem reachable_store_is_empty (values : Storage -> list Product)
    (st : Storage) :
  enumerates values -> reachable st ->
  st = ∅ /\ getProducts values st = (Normal (Ok []), st).
Proof.
  intros Hvalues [calls <-]. rewrite run_empty. split; [reflexivity|].
  unfold getProducts. specialize (Hvalues ∅).
  rewrite map_to_list_empty in Hvalues.
  apply Permutation_nil_r in Hvalues. rewrite Hvalues. reflexivity.
Qed.

Lemma reachable_store_is_empty_witness :
  run [CallAdd 1000 5%N sample_payload; CallRate "p1" 3%float] = ∅ /\
  getProducts values_of
    (run [CallAdd 1000 5%N sample_payload; CallRate "p1" 3%float])
  = (Normal (Ok []),
     run [CallAdd 1000 5%N sample_payload; CallRate "p1" 3%float]).
Proof.
  apply (reachable_store_is_empty values_of
           (run [CallAdd 1000 5%N sample_payload; CallRate "p1" 3%float])).
  - exact enumerates_values_of.
  - eexists. reflexivity.
Defined.

(** ** The range check *)

(** X11. [validateRating] returns exactly for NaN and for the ratings
    [r] with [1 <= r <= 5], and throws its error for every other rating;
    it never touches the store. *)
Theorem validateRating_passes_iff (rating : number) (st : Storage) :
  (validateRating rating st = (Normal tt, st) <->
   rating = nan \/
   ((1 <=? rating)%float = true /\ (rating <=? 5)%float = true)) /\
  (validateRating rating st = (Normal tt, st) \/
   validateRating rating st = (Throw (Error rating_message), st)).
Proof.
  unfold validateRating, gtb, throw, mret, canister_ret.
  destruct (rating <? 1)%float eqn:Hlo; [|destruct (5 <? rating)%float eqn:Hhi];
    cbn [orb]; (split; [split|]); try (right; reflexivity);
    try (left; reflexivity); try discriminate; try reflexivity.
  - intros H. apply in_range_passes, orb_false_elim in H as [H _]. congruence.
  - intros H. apply in_range_passes, orb_false_elim in H as [_ H]. congruence.
  - intros _. apply in_range_or_nan; assumption.
Qed.

(** X12. On an integer rating (of magnitude below [2^53], so that the
    binary64 value is the integer itself) the range check is exact:
    [validateRating] returns when the integer is one of 1, 2, 3, 4, 5 and
    throws otherwise. *)
Theorem integer_rating_passes_iff_in_range (st : Storage) (z : Z) :
  (- 2 ^ 53 < z < 2 ^ 53)%Z ->
  validateRating (number_of_Z z) st
  = if ((1 <=? z) && (z <=? 5))%Z then (Normal tt, st)
    else (Throw (Error rating_message), st).
Proof. apply validateRating_integer. Qed.

Lemma integer_rating_passes_iff_in_range_witness :
  validateRating (number_of_Z 6) sample_store
  = if ((1 <=? 6) && (6 <=? 5))%Z then (Normal tt, sample_store)
    else (Throw (Error rating_message), sample_store).
Proof. apply (integer_rating_passes_iff_in_range sample_store 6). lia. Defined.

(** ** Lines 71 to 77 on a record

    [calculateAverageRating] hands these lines the [Opt] of the lookup, on
    which they throw.  The properties below are about what the lines
    compute when [product] is a record itself. *)

(** X13. On a record without ratings lines 71 to 77 return 0; on ratings
    [4,5] they return 4.5 and on ratings [1,2,2] they return 1.67. *)
Theorem averageRating_examples (product : Product) (st : Storage) :
  (Product.Ratings product = [] ->
   averageRating (Product_value product) st = (Normal (Ok (Num 0%float)), st)) /\
  (Product.Ratings product = [4; 5]%float ->
   averageRating (Product_value product) st = (Normal (Ok (Num 4.5%float)), st)) /\
  (Product.Ratings product = [1; 2; 2]%float ->
   averageRating (Product_value product) st
   = (Normal (Ok (Num 1.67%float)), st)).
Proof.
  repeat split; intros H;
    rewrite averageRating_of_record by (rewrite H; simpl; lia);
    rewrite H; reflexivity.
Qed.

(** X14. On a record with at least one rating, fewer than [2^32]
    ratings, each one of 1, 2, 3, 4, 5, lines 71 to 77 return the binary64
    value nearest to a hundredth nearest to the exact mean of the
    ratings. *)
Theorem averageRating_of_integer_ratings (product : Product) (st : Storage) :
  Product.Ratings product <> [] ->
  Forall integer_rating (Product.Ratings product) ->
  (Z.of_nat (length (Product.Ratings product)) < 2 ^ 32)%Z ->
  exists k : Z,
    (0 <= k)%Z /\
    nearest_hundredth (exact_mean (Product.Ratings product)) k /\
    averageRating (Product_value product) st
    = (Normal (Ok (Num (decimal_to_number false (Z.to_N k) 2))), st).
Proof.
  intros Hne Hint Hlen.
  destruct (average_of_integer_ratings _ Hne Hint Hlen) as (k & Hk & Hnear & Hr).
  exists k. split; [exact Hk|]. split; [exact Hnear|].
  rewrite averageRating_of_record by lia.
  destruct (Product.Ratings product); [congruence|]. rewrite Hr. reflexivity.
Qed.

Lemma averageRating_of_integer_ratings_witness :
  exists k : Z,
    (0 <= k)%Z /\
    nearest_hundredth (exact_mean (Product.Ratings sample_product)) k /\
    averageRating (Product_value sample_product) sample_store
    = (Normal (Ok (Num (decimal_to_number false (Z.to_N k) 2))), sample_store).
Proof.
  apply (averageRating_of_integer_ratings sample_product sample_store).
  - discriminate.
  - repeat constructor; unfold integer_rating; simpl; tauto.
  - simpl. lia.
Defined.

(** X15. On a record with at least one rating, fewer than [2^32]
    ratings, each one of 1, 2, 3, 4, 5, the number lines 71 to 77 return
    lies between 1 and 5. *)
Theorem averageRating_in_range (product : Product) (st : Storage) :
  Product.Ratings product <> [] ->
  Forall integer_rating (Product.Ratings product) ->
  (Z.of_nat (length (Product.Ratings product)) < 2 ^ 32)%Z ->
  exists r,
    averageRating (Product_value product) st = (Normal (Ok (Num r)), st) /\
    (1 <=? r)%float = true /\ (r <=? 5)%float = true.
Proof.
  intros Hne Hint Hlen.
  destruct (average_of_integer_ratings _ Hne Hint Hlen) as (k & Hk & Hnear & Hr).
  destruct (exact_mean_of_integers _ Hne Hint) as (S & n & Hn & HS & Hmean).
  unfold nearest_hundredth in Hnear. rewrite Hmean in Hnear.
  pose proof (nearest_hundredth_bounds S n k Hn HS Hnear) as Hrange.
  exists (decimal_to_number false (Z.to_N k) 2). split.
  - rewrite averageRating_of_record by lia.
    destruct (Product.Ratings product); [congruence|]. rewrite Hr. reflexivity.
  - apply hundredth_in_range, Hrange.
Qed.

Lemma averageRating_in_range_witness :
  exists r,
    averageRating (Product_value sample_product) sample_store
    = (Normal (Ok (Num r)), sample_store) /\
    (1 <=? r)%float = true /\ (r <=? 5)%float = true.
Proof.
  apply (averageRating_in_range sample_product sample_store).
  - discriminate.
  - repeat constructor; unfold integer_rating; simpl; tauto.
  - simpl. lia.
Defined.

(** X16. On a record whose ratings are all the same integer of [1,5] (at
    least one rating, fewer than [2^32]) lines 71 to 77 return that
    integer. *)
Theorem averageRating_of_equal_ratings (product : Product) (st : Storage)
    (r : number) (n : nat) :
  integer_rating r ->
  Product.Ratings product = repeat r n ->
  (0 < n)%nat -> (Z.of_nat n < 2 ^ 32)%Z ->
  averageRating (Product_value product) st = (Normal (Ok (Num r)), st).
Proof.
  intros Hr Hratings Hn Hlen.
  assert (repeat r n <> []) as Hne by (destruct n; [lia | discriminate]).
  assert (Forall integer_rating (repeat r n)) as Hint
      by (apply Forall_forall; intros x Hx; apply list_elem_of_In, repeat_spec in Hx;
          subst; exact Hr).
  destruct (average_of_integer_ratings (repeat r n) Hne Hint)
    as (k & Hk & Hnear & Havg); [rewrite repeat_length; exact Hlen|].
  destruct (integer_rating_of_Z r Hr) as (z & Hz & Hrz & Hv).
  unfold nearest_hundredth in Hnear.
  rewrite (exact_mean_repeat r n Hn), Hv in Hnear.
  apply nearest_hundredth_of_integer in Hnear. subst k.
  rewrite averageRating_of_record by (rewrite Hratings, repeat_length; lia).
  rewrite Hratings.
  destruct (repeat r n) as [|r0 rs]; [congruence|].
  rewrite Havg, (whole_hundredths z Hz), <- Hrz. reflexivity.
Qed.

Lemma averageRating_of_equal_ratings_witness :
  averageRating
    (Product_value
       {| Product.id := "p3"; Product.name := "cup"; Product.description := "blue";
          Product.URL := "https://example.org/cup";
          Product.Ratings := repeat 4%float 3;
          Product.created_at := 1%N; Product.updated_at := None |})
    sample_store
  = (Normal (Ok (Num 4%float)), sample_store).
Proof.
  apply (averageRating_of_equal_ratings
           {| Product.id := "p3"; Product.name := "cup";
              Product.description := "blue";
              Product.URL := "https://example.org/cup";
              Product.Ratings := repeat 4%float 3;
              Product.created_at := 1%N; Product.updated_at := None |}
           sample_store 4%float 3).
  - unfold integer_rating. simpl. tauto.
  - reflexivity.
  - lia.
  - simpl. lia.
Defined.
